(** * RUPACAYA: the scenario-projection and macro-impact engine of [src/App.js]

    The development embeds the numeric core of the [App] component:
    the base-rate table [base], the what-if adjustment [adjustedRatesFor],
    the entry point [calcAll] (scenario projection and national liquidity
    impact), the memoised correlation curve [corrPoints] and the inflation
    feedback block ([ratioDanaPdb], [tambahanInflasi], [inflasiSimulasi]),
    and the five-step wizard around them.

    Number model.  A JavaScript [Number] is an IEEE-754 double.  The engine
    is embedded twice.

    - Over the reals: a number is idealised as a real, and the three numeric
      inputs [modal], [months] and [investors], produced by
      [Number(onlyDigits(str) || 0)], are natural numbers kept in [N] and
      injected into [R] where the source does arithmetic on them.  A
      statement over this model is either the source's own expression, or an
      inequality whose margin is far above the rounding of a double; where
      the size of an input matters, the statement bounds it
      ([Js.MAX_SAFE_INTEGER], 600 months).

    - Over binary64 (module [B64]): the same source lines on primitive
      floats, with the rounding of every operation, [Infinity], [NaN] and
      the members that a property read finds on [Object.prototype].
      Statements about the last bits of a rate, about non-finite values and
      about inherited members are made there. *)

From Stdlib Require Import Reals Lra Lia.
From Stdlib Require Import String Ascii NArith ZArith Bool List.
From Stdlib Require Decimal DecimalString DecimalN.
From Stdlib Require Import Floats Uint63.
Import ListNotations.

Open Scope R_scope.
#[local] Set Warnings "-inexact-float".

(** ** JavaScript helpers *)

(** Injection of a digit-parsed number into the reals. *)
Definition N2R (n : N) : R := IZR (Z.of_N n).

Module Js.

(** The character class [\d] (no unicode flag): the ten ASCII digits. *)
Definition isDigit (c : ascii) : bool :=
  ((48 <=? nat_of_ascii c)%nat && (nat_of_ascii c <=? 57)%nat)%bool.

Definition digitVal (c : ascii) : N := N.of_nat (nat_of_ascii c - 48).

(** [Number(s)] on a string of decimal digits, most significant first;
    [acc] is the value of the digits already read. *)
Fixpoint NumberFrom (acc : N) (s : string) : N :=
  match s with
  | EmptyString => acc
  | String c s' => NumberFrom (acc * 10 + digitVal c) s'
  end.

(** [Number(s || 0)] for a digit string [s]: the empty string is falsy and
    gives [Number(0) = 0], which is also what the empty digit sequence
    evaluates to. *)
Definition NumberOr0 (s : string) : N := NumberFrom 0 s.

(** Truthiness of a number: [!n] holds exactly for zero. *)
Definition falsy (n : N) : bool := (n =? 0)%N.

(** Truthiness of a string: only the empty string is falsy. *)
Definition truthyStr (s : string) : bool :=
  match s with EmptyString => false | String _ _ => true end.

(** [Number.MAX_SAFE_INTEGER]: up to here integers and their sums are exact
    doubles and [toString] prints plain decimal digits. *)
Definition MAX_SAFE_INTEGER : N := 9007199254740991.

(** [n.toString()] for a natural number in the safe range: its decimal
    digits, ["0"] for zero. *)
Definition toString (n : N) : string :=
  DecimalString.NilZero.string_of_uint (N.to_uint n).

(** [String.prototype.trim] on a string given by its UTF-16 code units:
    the white space and line terminator code points of ECMAScript. *)
Definition isWhiteSpace (c : N) : bool :=
  (existsb (N.eqb c)
     [9; 10; 11; 12; 13; 32; 160; 5760; 8232; 8233; 8239; 8287; 12288; 65279]
   || ((8192 <=? c) && (c <=? 8202)))%N%bool.

Fixpoint trimStart (s : list N) : list N :=
  match s with
  | [] => []
  | c :: s' => if isWhiteSpace c then trimStart s' else s
  end.

Definition trim (s : list N) : list N :=
  List.rev (trimStart (List.rev (trimStart s))).

End Js.

(** [const onlyDigits = (s) => (s ?? "").toString().replace(/[^\d]/g, "")] *)
Fixpoint onlyDigits (s : string) : string :=
  match s with
  | EmptyString => EmptyString
  | String c s' =>
      if Js.isDigit c then String c (onlyDigits s') else onlyDigits s'
  end.

Module Math.

(** [Math.pow(x, n)] where the exponent is a non-negative integer. *)
Definition pow_int (x : R) (n : N) : R := x ^ N.to_nat n.

(** [Math.pow(x, y)] with a real exponent, for a positive base [x]
    (the only case the engine reaches, see [root_base_positive]). *)
Definition pow (x y : R) : R := Rpower x y.

Definition max (a b : R) : R := Rmax a b.

End Math.

(** ** Data makro *)

Module macro.
Definition trxHarianBEI : R := 25020000000000.
Definition inflasiTahunan : R := 2.65.
End macro.

(** ** Base rates and what-if adjustment *)

(** A rate triple [{ opt, mod, pes }]; the field [mod] is written [mod_]
    because [mod] is a notation keyword. *)
Record Rates : Type := mkRates { opt : R; mod_ : R; pes : R }.

(** [const base = { saham: {...}, obligasi: {...}, ... }], an object used as
    a map from instrument key to monthly rates, in source order. *)
Definition base : list (string * Rates) :=
  [ ("saham",     {| opt := 0.015; mod_ := 0.008; pes := -0.01 |});
    ("obligasi",  {| opt := 0.007; mod_ := 0.004; pes := -0.003 |});
    ("deposito",  {| opt := 0.004; mod_ := 0.003; pes := 0.002 |});
    ("emas",      {| opt := 0.006; mod_ := 0.004; pes := 0.0002 |});
    ("reksadana", {| opt := 0.012; mod_ := 0.006; pes := -0.007 |}) ]%string.

(** Lookup among the own properties of an object literal; [None] stands
    for [undefined].  The instrument key is the value of a [<select>] whose
    options are the empty string and the five keys; on those the read
    [base[type]] is this lookup.  The members the read also finds on
    [Object.prototype] are modelled in [B64.member]. *)
Fixpoint get {A : Type} (obj : list (string * A)) (key : string) : option A :=
  match obj with
  | [] => None
  | (k, v) :: rest => if String.eqb key k then Some v else get rest key
  end.

(** The five enumerated instruments. *)
Definition instruments : list string :=
  [ "saham"; "obligasi"; "deposito"; "emas"; "reksadana" ]%string.

(** [const [adj, setAdj] = useState({ inflasiUp, biDown, ihsgUp })] *)
Record Adj : Type := mkAdj { inflasiUp : bool; biDown : bool; ihsgUp : bool }.

Definition adjOff : Adj :=
  {| inflasiUp := false; biDown := false; ihsgUp := false |}.

(** The running scalar [d] of [adjustedRatesFor]: [let d = 0] followed by
    the three toggle blocks, with the captured toggle state [adj] made a
    parameter.  Each [if (type === ...) d += c] is one rebinding of [d]. *)
Definition whatIfDelta (adj : Adj) (type : string) : R :=
  let d := 0 in
  let d :=
    if inflasiUp adj then
      let d := if String.eqb type "saham" then d - 0.002 else d in
      let d := if String.eqb type "obligasi" then d - 0.001 else d in
      let d := if String.eqb type "deposito" then d + 0.0005 else d in
      let d := if String.eqb type "emas" then d + 0.001 else d in
      let d := if String.eqb type "reksadana" then d - 0.001 else d in
      d
    else d in
  let d :=
    if biDown adj then
      let d := if String.eqb type "saham" then d + 0.0015 else d in
      let d := if String.eqb type "obligasi" then d + 0.001 else d in
      let d := if String.eqb type "deposito" then d - 0.0004 else d in
      let d := if String.eqb type "emas" then d + 0.0002 else d in
      let d := if String.eqb type "reksadana" then d + 0.001 else d in
      d
    else d in
  let d :=
    if ihsgUp adj then
      let d := if String.eqb type "saham" then d + 0.002 else d in
      let d := if String.eqb type "reksadana" then d + 0.0015 else d in
      let d := if String.eqb type "emas" then d - 0.0005 else d in
      d
    else d in
  d.

(** [function adjustedRatesFor(type)]: [const b = base[type]],
    [if (!b) return null], the computation of [d], and the returned
    object. *)
Definition adjustedRatesFor (adj : Adj) (type : string) : option Rates :=
  match get base type with
  | None => None
  | Some b =>
      let d := whatIfDelta adj type in
      Some {| opt := opt b + d; mod_ := mod_ b + d; pes := pes b + d * 0.5 |}
  end.

(** The adjustment as the specification words it: a table of fixed deltas
    per toggle and instrument (an instrument a toggle does not list gets
    zero), summed over the active toggles. *)
Inductive Toggle : Type := InflasiUp | BiDown | IhsgUp.

Definition deltaTable (t : Toggle) : list (string * R) :=
  match t with
  | InflasiUp =>
      [ ("saham", -0.002); ("obligasi", -0.001); ("deposito", 0.0005);
        ("emas", 0.001); ("reksadana", -0.001) ]
  | BiDown =>
      [ ("saham", 0.0015); ("obligasi", 0.001); ("deposito", -0.0004);
        ("emas", 0.0002); ("reksadana", 0.001) ]
  | IhsgUp =>
      [ ("saham", 0.002); ("reksadana", 0.0015); ("emas", -0.0005) ]
  end%string.

Definition delta (t : Toggle) (type : string) : R :=
  match get (deltaTable t) type with Some c => c | None => 0 end.

Definition active (adj : Adj) (t : Toggle) : bool :=
  match t with
  | InflasiUp => inflasiUp adj
  | BiDown => biDown adj
  | IhsgUp => ihsgUp adj
  end.

Definition deltaSum (adj : Adj) (type : string) : R :=
  fold_right
    (fun t acc => (if active adj t then delta t type else 0) + acc)
    0 [InflasiUp; BiDown; IhsgUp].

(** ** Component state and [calcAll] *)

(** [setResult({ optV, modV, pesV, monthlyModeratePct, annualModerate })] *)
Record Result : Type := mkResult {
  optV : R;
  modV : R;
  pesV : R;
  monthlyModeratePct : R;
  annualModerate : R
}.

(** [setImpact({ totalDana, impactPct })] *)
Record Impact : Type := mkImpact { totalDana : R; impactPct : R }.

(** The [useState] cells the engine reads and writes.  [None] in [result]
    and [impact] is the initial [null]. *)
Record State : Type := mkState {
  investment : string;
  modalStr : string;
  monthsStr : string;
  investorsStr : string;
  adj : Adj;
  result : option Result;
  impact : option Impact;
  pdb : R;
  porsiProduktif : R
}.

(** [const modal = Number(onlyDigits(modalStr) || 0)] and its two siblings. *)
Definition modal (st : State) : N := Js.NumberOr0 (onlyDigits (modalStr st)).
Definition months (st : State) : N := Js.NumberOr0 (onlyDigits (monthsStr st)).
Definition investors (st : State) : N :=
  Js.NumberOr0 (onlyDigits (investorsStr st)).

Definition setResult (v : Result) (st : State) : State :=
  {| investment := investment st; modalStr := modalStr st;
     monthsStr := monthsStr st; investorsStr := investorsStr st;
     adj := adj st; result := Some v; impact := impact st;
     pdb := pdb st; porsiProduktif := porsiProduktif st |}.

Definition setImpact (v : Impact) (st : State) : State :=
  {| investment := investment st; modalStr := modalStr st;
     monthsStr := monthsStr st; investorsStr := investorsStr st;
     adj := adj st; result := result st; impact := Some v;
     pdb := pdb st; porsiProduktif := porsiProduktif st |}.

Definition setMonthsStr (s : string) (st : State) : State :=
  {| investment := investment st; modalStr := modalStr st;
     monthsStr := s; investorsStr := investorsStr st;
     adj := adj st; result := result st; impact := impact st;
     pdb := pdb st; porsiProduktif := porsiProduktif st |}.

(** [const grow = (rate) => modal * Math.pow(1 + rate, months)], with the
    captured [modal] and [months] as parameters. *)
Definition grow (modal months : N) (rate : R) : R :=
  N2R modal * Math.pow_int (1 + rate) months.

(** The projection block of [calcAll]: the object handed to [setResult]. *)
Definition scenarioResult (r : Rates) (modal months : N) : Result :=
  let optV := grow modal months (opt r) in
  let modV := grow modal months (mod_ r) in
  let pesV := grow modal months (pes r) in
  let monthlyModeratePct :=
    (Math.pow (modV / N2R modal) (1 / N2R months) - 1) * 100 in
  let annualModerate := (Math.pow_int (1 + mod_ r) 12 - 1) * 100 in
  {| optV := optV; modV := modV; pesV := pesV;
     monthlyModeratePct := monthlyModeratePct;
     annualModerate := annualModerate |}.

(** The national-impact block of [calcAll]: the object handed to
    [setImpact]. *)
Definition nationalImpact (modal investors : N) : Impact :=
  let totalDana := N2R investors * N2R modal in
  let impactPct := 8 * (totalDana / macro.trxHarianBEI) in
  {| totalDana := totalDana; impactPct := impactPct |}.

(** [function calcAll()]: one call, from the state before to the state
    after.  The early [return] leaves every cell as it was. *)
Definition calcAll (st : State) : State :=
  match adjustedRatesFor (adj st) (investment st) with
  | None => st
  | Some r =>
      if (Js.falsy (modal st) || Js.falsy (months st))%bool then st
      else
        let st := setResult (scenarioResult r (modal st) (months st)) st in
        setImpact (nationalImpact (modal st) (investors st)) st
  end.

(** ** Correlation curve *)

Record Point : Type := mkPoint { x : R; y : R }.

(** The impact percentage of iteration [i], before the clamp. *)
Definition corrYPct (modal investors : N) (n i : nat) : R :=
  let frac := INR i / INR n in
  let inv := N2R investors * frac in
  let totalDana := inv * N2R modal in
  8 * (totalDana / macro.trxHarianBEI).

(** The object pushed by iteration [i] of the loop. *)
Definition corrPoint (modal investors : N) (n i : nat) : Point :=
  let frac := INR i / INR n in
  let inv := N2R investors * frac in
  let yPct := corrYPct modal investors n i in
  {| x := inv; y := Math.max 0 yPct |}.

(** [const corrPoints = useMemo(() => {...}, [modal, investors])]: the
    counted loop [for (let i = 1; i <= n; i++) pts.push(...)] is a left
    fold over [1..n] appending one point per iteration. *)
Definition corrPoints (modal investors : N) : list Point :=
  if (Js.falsy modal || Js.falsy investors)%bool then []
  else
    let n := 10%nat in
    fold_left (fun pts i => pts ++ [corrPoint modal investors n i])
              (seq 1 n) [].

(** ** Inflation feedback *)

Module Inflasi.

(** [const k = 0.05] and [const inflasiAwal = 2.65]. *)
Definition k : R := 0.05.
Definition inflasiAwal : R := 2.65.

(** [const modalValue = Number(modal)],
    [const investorCount = Number(investors || 0)]. *)
Definition modalValue (st : State) : R := N2R (modal st).
Definition investorCount (st : State) : R := N2R (investors st).

(** [const totalDana = modalValue * investorCount] *)
Definition totalDana (st : State) : R := modalValue st * investorCount st.

(** [const totalDanaTriliun = totalDana / 1_000_000_000_000] *)
Definition totalDanaTriliun (st : State) : R :=
  totalDana st / 1000000000000.

(** [const ratioDanaPdb = pdb > 0 ? totalDanaTriliun / pdb : 0] *)
Definition ratioDanaPdb (st : State) : R :=
  if Rlt_dec 0 (pdb st) then totalDanaTriliun st / pdb st else 0.

(** [const tambahanInflasi = k * (1 - porsiProduktif) * ratioDanaPdb * 100] *)
Definition tambahanInflasi (st : State) : R :=
  k * (1 - porsiProduktif st) * ratioDanaPdb st * 100.

(** [const inflasiSimulasi = inflasiAwal + tambahanInflasi] *)
Definition inflasiSimulasi (st : State) : R :=
  inflasiAwal + tambahanInflasi st.

End Inflasi.

(** ** Example states *)

(** The state of the first end-to-end example: saham, Rp 1.000.000 for
    12 months, 18 million investors, no toggle. *)
Definition stExample : State :=
  {| investment := "saham"; modalStr := "1000000"; monthsStr := "12";
     investorsStr := "18000000"; adj := adjOff;
     result := None; impact := None; pdb := 20000; porsiProduktif := 0.7 |}.

(** The rates [adjustedRatesFor] returns for saham with every toggle off. *)
Definition sahamRates : Rates :=
  {| opt := 0.015 + 0; mod_ := 0.008 + 0; pes := -0.01 + 0 * 0.5 |}.

(** A state with stored results, an instrument chosen, and the principal
    field emptied. *)
Definition stNoModal : State :=
  {| investment := "emas"; modalStr := ""; monthsStr := "24";
     investorsStr := "18000000"; adj := adjOff;
     result := Some (scenarioResult sahamRates 5 6);
     impact := Some (nationalImpact 5 7);
     pdb := 20000; porsiProduktif := 0.7 |}.

(** The example state with the GDP field cleared to zero. *)
Definition stNoPdb : State :=
  {| investment := "saham"; modalStr := "1000000"; monthsStr := "12";
     investorsStr := "18000000"; adj := adjOff;
     result := None; impact := None; pdb := 0; porsiProduktif := 0.7 |}.

(** ** Input helpers and step-4 handlers *)

(** [const clamp = (v, min, max) => Math.max(min, Math.min(max, v))], at the
    type of its only call site: the three arguments are natural numbers. *)
Definition clamp (v min max : N) : N := N.max min (N.min max v).

Definition setInvestment (s : string) (st : State) : State :=
  {| investment := s; modalStr := modalStr st;
     monthsStr := monthsStr st; investorsStr := investorsStr st;
     adj := adj st; result := result st; impact := impact st;
     pdb := pdb st; porsiProduktif := porsiProduktif st |}.

Definition setModalStr (s : string) (st : State) : State :=
  {| investment := investment st; modalStr := s;
     monthsStr := monthsStr st; investorsStr := investorsStr st;
     adj := adj st; result := result st; impact := impact st;
     pdb := pdb st; porsiProduktif := porsiProduktif st |}.

Definition setInvestorsStr (s : string) (st : State) : State :=
  {| investment := investment st; modalStr := modalStr st;
     monthsStr := monthsStr st; investorsStr := s;
     adj := adj st; result := result st; impact := impact st;
     pdb := pdb st; porsiProduktif := porsiProduktif st |}.

Definition setAdj (a : Adj) (st : State) : State :=
  {| investment := investment st; modalStr := modalStr st;
     monthsStr := monthsStr st; investorsStr := investorsStr st;
     adj := a; result := result st; impact := impact st;
     pdb := pdb st; porsiProduktif := porsiProduktif st |}.

Definition setPdb (v : R) (st : State) : State :=
  {| investment := investment st; modalStr := modalStr st;
     monthsStr := monthsStr st; investorsStr := investorsStr st;
     adj := adj st; result := result st; impact := impact st;
     pdb := v; porsiProduktif := porsiProduktif st |}.

Definition setPorsiProduktif (v : R) (st : State) : State :=
  {| investment := investment st; modalStr := modalStr st;
     monthsStr := monthsStr st; investorsStr := investorsStr st;
     adj := adj st; result := result st; impact := impact st;
     pdb := pdb st; porsiProduktif := v |}.

(** [onChange={(e) => setModalStr(onlyDigits(e.target.value))}] *)
Definition onChangeModal (v : string) (st : State) : State :=
  setModalStr (onlyDigits v) st.

(** [onChange={(e) => setInvestorsStr(onlyDigits(e.target.value))}] *)
Definition onChangeInvestors (v : string) (st : State) : State :=
  setInvestorsStr (onlyDigits v) st.

(** [onChange={(e) => setMonthsStr(onlyDigits(
       clamp(Number(onlyDigits(e.target.value) || 0), 0, 600)))}]:
    [onlyDigits] is handed a number and first prints it. *)
Definition onChangeMonths (v : string) (st : State) : State :=
  setMonthsStr
    (onlyDigits (Js.toString (clamp (Js.NumberOr0 (onlyDigits v)) 0 600))) st.

(** The button "+ 500 rb":
    [setModalStr((modal ? modal : 0 + 500000).toString())].  The conditional
    binds weaker than [+], so the else branch is [0 + 500000]. *)
Definition onClickPlus500rb (st : State) : State :=
  setModalStr
    (Js.toString (if Js.falsy (modal st) then 0 + 500000 else modal st))%N st.

(** The buttons "+ 1 jt" and "+ 5 jt":
    [setModalStr((modal + k).toString())]. *)
Definition onClickPlus (k : N) (st : State) : State :=
  setModalStr (Js.toString (modal st + k)) st.

(** The three what-if pills, [setAdj((a) => ({ ...a, t: !a.t }))]. *)
Definition toggle (t : Toggle) (a : Adj) : Adj :=
  match t with
  | InflasiUp =>
      {| inflasiUp := negb (inflasiUp a); biDown := biDown a;
         ihsgUp := ihsgUp a |}
  | BiDown =>
      {| inflasiUp := inflasiUp a; biDown := negb (biDown a);
         ihsgUp := ihsgUp a |}
  | IhsgUp =>
      {| inflasiUp := inflasiUp a; biDown := biDown a;
         ihsgUp := negb (ihsgUp a) |}
  end.

(** ** Gains shown with the result *)

(** [const valOpt = Number(result?.optV ?? 0)] and its two siblings. *)
Definition valOpt (st : State) : R :=
  match result st with Some res => optV res | None => 0 end.
Definition valMod (st : State) : R :=
  match result st with Some res => modV res | None => 0 end.
Definition valPes (st : State) : R :=
  match result st with Some res => pesV res | None => 0 end.

(** [modalValue > 0 ? ((val - modalValue) / modalValue) * 100 : 0] *)
Definition pctGain (st : State) (val : R) : R :=
  if Rlt_dec 0 (Inflasi.modalValue st)
  then ((val - Inflasi.modalValue st) / Inflasi.modalValue st) * 100
  else 0.

Definition pctOptimis (st : State) : R := pctGain st (valOpt st).
Definition pctModerat (st : State) : R := pctGain st (valMod st).
Definition pctPesimis (st : State) : R := pctGain st (valPes st).

(** ** The SVG line chart *)

Module LineChart.

Definition pad : R := 24.

(** [v || 1] on a number: zero is replaced by one. *)
Definition orOne (v : R) : R := if Req_dec_T v 0 then 1 else v.

(** [Math.min(...xs)] and [Math.max(...xs)] of a non-empty argument list.
    The chart returns its placeholder before it reaches them when there is
    no point, so the value on the empty list is never used. *)
Definition minOf (xs : list R) : R :=
  match xs with [] => 0 | a :: l => fold_left Rmin l a end.
Definition maxOf (xs : list R) : R :=
  match xs with [] => 0 | a :: l => fold_left Rmax l a end.

(** [const sx = (x) => pad + ((x - minX) / (maxX - minX || 1)) * W] *)
Definition sx (width : R) (points : list Point) (x0 : R) : R :=
  let W := width - pad * 2 in
  let xs := map x points in
  let minX := minOf xs in
  let maxX := maxOf xs in
  pad + ((x0 - minX) / orOne (maxX - minX)) * W.

(** [const sy = (y) => height - pad - ((y - minY) / (maxY - minY || 1)) * H]
    with [minY = 0] and [maxY = Math.max(...ys, 1)]. *)
Definition sy (height : R) (points : list Point) (y0 : R) : R :=
  let H := height - pad * 2 in
  let ys := map y points in
  let minY := 0 in
  let maxY := maxOf (ys ++ [1]) in
  height - pad - ((y0 - minY) / orOne (maxY - minY)) * H.

(** The vertices of the drawn path, one per point in order; [None] is the
    placeholder returned when [points] is empty. *)
Definition vertices (width height : R) (points : list Point)
  : option (list (R * R)) :=
  match points with
  | [] => None
  | _ :: _ =>
      Some (map (fun p => (sx width points (x p), sy height points (y p)))
                points)
  end.

End LineChart.

(** ** The five-step wizard *)

(** The cells of [App] outside the engine.  The two free-text fields are
    kept as UTF-16 code units, the unit in which [trim] and [length] work;
    [usia] is only ever written through [onlyDigits]; [showInfo] is the
    flag of the explanation box on the result page. *)
Record App : Type := mkApp {
  step : Z;
  nama : list N;
  usia : string;
  pekerjaan : list N;
  engine : State;
  showInfo : bool
}.

Definition setStep (n : Z) (w : App) : App :=
  {| step := n; nama := nama w; usia := usia w; pekerjaan := pekerjaan w;
     engine := engine w; showInfo := showInfo w |}.

Definition setNama (v : list N) (w : App) : App :=
  {| step := step w; nama := v; usia := usia w; pekerjaan := pekerjaan w;
     engine := engine w; showInfo := showInfo w |}.

Definition setUsia (v : string) (w : App) : App :=
  {| step := step w; nama := nama w; usia := v; pekerjaan := pekerjaan w;
     engine := engine w; showInfo := showInfo w |}.

Definition setPekerjaan (v : list N) (w : App) : App :=
  {| step := step w; nama := nama w; usia := usia w; pekerjaan := v;
     engine := engine w; showInfo := showInfo w |}.

Definition onEngine (f : State -> State) (w : App) : App :=
  {| step := step w; nama := nama w; usia := usia w;
     pekerjaan := pekerjaan w; engine := f (engine w);
     showInfo := showInfo w |}.

(** [setShowInfo(v)] *)
Definition setShowInfo (v : bool) (w : App) : App :=
  {| step := step w; nama := nama w; usia := usia w;
     pekerjaan := pekerjaan w; engine := engine w; showInfo := v |}.

(** The state of the first render: every [useState] initial value. *)
Definition appInit : App :=
  {| step := 1; nama := []; usia := ""; pekerjaan := [];
     engine :=
       {| investment := ""; modalStr := ""; monthsStr := "";
          investorsStr := "18000000"; adj := adjOff;
          result := None; impact := None;
          pdb := 20000; porsiProduktif := 0.7 |};
     showInfo := false |}.

(** The object [e] built by the validation effect; an absent key is
    [None]. *)
Record Errors : Type := mkErrors {
  err_nama : option string;
  err_usia : option string;
  err_investment : option string;
  err_modal : option string;
  err_months : option string;
  err_investors : option string
}.

Definition isSome {A : Type} (o : option A) : bool :=
  match o with Some _ => true | None => false end.

(** The body of the validation effect: the [errors] in force once the
    effect has run for the current values. *)
Definition validate (w : App) : Errors :=
  let st := engine w in
  let len := N.of_nat (length (Js.trim (nama w))) in
  {| err_nama :=
       if ((2 <=? step w)%Z && ((len <? 2) || (30 <? len))%N)%bool
       then Some "Nama 2–30 karakter."%string else None;
     err_usia :=
       if ((2 <=? step w)%Z && Js.truthyStr (usia w) &&
           ((Js.NumberFrom 0 (usia w) <? 10) ||
            (100 <? Js.NumberFrom 0 (usia w)))%N)%bool
       then Some "Usia 10–100."%string else None;
     err_investment :=
       if ((3 <=? step w)%Z && negb (Js.truthyStr (investment st)))%bool
       then Some "Pilih instrumen dulu."%string else None;
     err_modal :=
       if ((4 <=? step w)%Z && Js.falsy (modal st))%bool
       then Some "Modal harus angka > 0"%string else None;
     err_months :=
       if ((4 <=? step w)%Z &&
           (Js.falsy (months st) || (months st <? 1) ||
            (600 <? months st))%N)%bool
       then Some "Durasi 1–600 bulan"%string else None;
     err_investors :=
       if ((4 <=? step w)%Z && Js.truthyStr (investorsStr st) &&
           Js.falsy (investors st))%bool
       then Some "Investor harus angka > 0"%string else None |}.

(** [function next()]; an [alert] leaves the state as it is. *)
Definition next (w : App) : App :=
  let errors := validate w in
  if (step w =? 1)%Z then setStep 2 w
  else if (step w =? 2)%Z then
    if (isSome (err_nama errors) || isSome (err_usia errors))%bool then w
    else setStep 3 w
  else if (step w =? 3)%Z then
    if isSome (err_investment errors) then w else setStep 4 w
  else if (step w =? 4)%Z then
    if (isSome (err_modal errors) || isSome (err_months errors)
        || isSome (err_investors errors))%bool
    then w
    else setStep 5 (onEngine calcAll w)
  else w.

(** [function back()]: [setStep((s) => Math.max(1, s - 1))]. *)
Definition back (w : App) : App := setStep (Z.max 1 (step w - 1)) w.

(** [function resetAll()]: it calls the setters of the wizard and engine
    cells; [pdb], [porsiProduktif] and [showInfo] are not among them. *)
Definition resetAll (w : App) : App :=
  {| step := 1; nama := []; usia := ""; pekerjaan := [];
     engine :=
       {| investment := ""; modalStr := ""; monthsStr := "";
          investorsStr := "18000000"; adj := adjOff;
          result := None; impact := None;
          pdb := pdb (engine w);
          porsiProduktif := porsiProduktif (engine w) |};
     showInfo := showInfo w |}.

(** The click handler of "Lihat Hasil" on step 4:
    [if (errors.modal || errors.months || errors.investors) return;
     calcAll(); setStep(5)]. *)
Definition onClickLihatHasil (w : App) : App :=
  let errors := validate w in
  if (isSome (err_modal errors) || isSome (err_months errors)
      || isSome (err_investors errors))%bool
  then w
  else setStep 5 (onEngine calcAll w).

(** [const progress = (step / 5) * 100] *)
Definition progress (w : App) : R := (IZR (step w) / 5) * 100.

(** What the user can do.  Each event names one control of the page. *)
Inductive Event : Type :=
| ClickNext
| ClickBack
| TypeNama (v : list N)
| TypeUsia (v : string)
| TypePekerjaan (v : list N)
| SelectInvestment (v : string)
| TypeModal (v : string)
| ClickPlus500rb
| ClickPlus1jt
| ClickPlus5jt
| TypeMonths (v : string)
| ClickMonths (v : string)
| TypeInvestors (v : string)
| ClickLihatHasil
| ClickToggle (t : Toggle)
| ClickResetToggles
| ClickTerapkan
| TypePdb (v : R)
| TypePorsiProduktif (v : R)
| ClickInfo
| ClickUbahAngka
| ClickMulaiLagi.

(** The page of step 5 is rendered under [step === 5 && result && impact]. *)
Definition resultPageShown (w : App) : bool :=
  ((step w =? 5)%Z && isSome (result (engine w))
   && isSome (impact (engine w)))%bool.

(** One event, dispatched as the page of the current step wires it: a
    control that is not rendered, or is [disabled], does nothing. *)
Definition handle (ev : Event) (w : App) : App :=
  let st := engine w in
  let errors := validate w in
  match ev with
  | ClickNext =>
      if (step w =? 1)%Z then next w
      else if (step w =? 2)%Z then
        if (isSome (err_nama errors) || isSome (err_usia errors)
            || match nama w with [] => true | _ :: _ => false end)%bool
        then w else next w
      else if (step w =? 3)%Z then
        if negb (Js.truthyStr (investment st)) then w else next w
      else w
  | ClickBack =>
      if ((2 <=? step w) && (step w <=? 4))%Z%bool then back w else w
  | TypeNama v => if (step w =? 2)%Z then setNama v w else w
  | TypeUsia v => if (step w =? 2)%Z then setUsia (onlyDigits v) w else w
  | TypePekerjaan v => if (step w =? 2)%Z then setPekerjaan v w else w
  | SelectInvestment v =>
      if (step w =? 3)%Z then onEngine (setInvestment v) w else w
  | TypeModal v =>
      if (step w =? 4)%Z then onEngine (onChangeModal v) w else w
  | ClickPlus500rb =>
      if (step w =? 4)%Z then onEngine onClickPlus500rb w else w
  | ClickPlus1jt =>
      if (step w =? 4)%Z then onEngine (onClickPlus 1000000) w else w
  | ClickPlus5jt =>
      if (step w =? 4)%Z then onEngine (onClickPlus 5000000) w else w
  | TypeMonths v =>
      if (step w =? 4)%Z then onEngine (onChangeMonths v) w else w
  | ClickMonths v =>
      if (step w =? 4)%Z then onEngine (setMonthsStr v) w else w
  | TypeInvestors v =>
      if (step w =? 4)%Z then onEngine (onChangeInvestors v) w else w
  | ClickLihatHasil =>
      if (step w =? 4)%Z then
        if (Js.falsy (modal st) || Js.falsy (months st))%bool then w
        else onClickLihatHasil w
      else w
  | ClickToggle t =>
      if resultPageShown w then onEngine (setAdj (toggle t (adj st))) w
      else w
  | ClickResetToggles =>
      if resultPageShown w then onEngine (setAdj adjOff) w else w
  | ClickTerapkan => if resultPageShown w then onEngine calcAll w else w
  | TypePdb v => if resultPageShown w then onEngine (setPdb v) w else w
  | TypePorsiProduktif v =>
      if resultPageShown w then onEngine (setPorsiProduktif v) w else w
  | ClickInfo =>
      if resultPageShown w then setShowInfo (negb (showInfo w)) w else w
  | ClickUbahAngka => if resultPageShown w then setStep 4 w else w
  | ClickMulaiLagi => if resultPageShown w then resetAll w else w
  end.

(** The values an event can carry: the [<select>] offers the empty option
    and the five instruments, the three duration buttons write ["6"],
    ["12"] and ["36"], and the amounts printed by the "+" buttons stay in
    the safe integer range. *)
Definition eventOk (w : App) (ev : Event) : Prop :=
  match ev with
  | SelectInvestment v => v = ""%string \/ In v instruments
  | ClickMonths v => In v ["6"; "12"; "36"]%string
  | ClickPlus500rb =>
      (modal (engine w) <= Js.MAX_SAFE_INTEGER)%N
  | ClickPlus1jt =>
      (modal (engine w) + 1000000 <= Js.MAX_SAFE_INTEGER)%N
  | ClickPlus5jt =>
      (modal (engine w) + 5000000 <= Js.MAX_SAFE_INTEGER)%N
  | _ => True
  end.

(** The states the user can bring the page into. *)
Inductive reachable : App -> Prop :=
| reach_init : reachable appInit
| reach_step (w : App) (ev : Event) :
    reachable w -> eventOk w ev -> reachable (handle ev w).

(** The stored result and impact belong to the current principal,
    duration, investor count and instrument, under some toggle setting. *)
Definition resultsCurrent (st : State) : Prop :=
  exists (a : Adj) (r : Rates),
    adjustedRatesFor a (investment st) = Some r /\
    result st = Some (scenarioResult r (modal st) (months st)) /\
    impact st = Some (nationalImpact (modal st) (investors st)).

(** What holds of every state the user can reach. *)
Definition wizardInv (w : App) : Prop :=
  (1 <= step w <= 5)%Z /\
  (months (engine w) <= 600)%N /\
  (investment (engine w) = ""%string \/
   In (investment (engine w)) instruments) /\
  ((4 <= step w)%Z -> In (investment (engine w)) instruments) /\
  (step w = 5%Z ->
   (0 < modal (engine w))%N /\ (1 <= months (engine w))%N /\
   resultsCurrent (engine w)).

(** A walk through the wizard: a name, an instrument, a principal and a
    duration, then "Lihat Hasil". *)
Definition demoEvents : list Event :=
  [ ClickNext; TypeNama [65; 114; 102; 97]%N; TypeUsia "17"; ClickNext;
    SelectInvestment "saham"; ClickNext;
    TypeModal "1.000.000"; TypeMonths "12"; ClickLihatHasil ].

Definition run (evs : list Event) (w : App) : App :=
  fold_left (fun w ev => handle ev w) evs w.

Definition wDemo : App := run demoEvents appInit.

(** Step 4 with a principal and a duration typed and the investor field
    emptied. *)
Definition wNoInvestors : App :=
  {| step := 4; nama := [65; 114; 102; 97]%N; usia := ""; pekerjaan := [];
     engine :=
       {| investment := "emas"; modalStr := "250000"; monthsStr := "6";
          investorsStr := ""; adj := adjOff;
          result := None; impact := None;
          pdb := 20000; porsiProduktif := 0.7 |};
     showInfo := false |}.

(** The cells [resetAll] leaves alone, erased: the GDP and the productive
    share of the engine, and the flag of the explanation box. *)
Definition forgetSt (st : State) : State := setPorsiProduktif 0 (setPdb 0 st).

Definition forgetKept (w : App) : App :=
  setShowInfo false (onEngine forgetSt w).

(** * The engine on binary64 doubles

    The definitions above idealise a JavaScript number as a real.  This
    module embeds the same source lines on IEEE-754 binary64 values, the
    arithmetic the page runs on, with the rounding of every operation, the
    overflow of a long digit string to [Infinity], [NaN], and the members a
    property read finds on [Object.prototype]. *)
Module B64.

(** [Number(s)] for a natural number given by its decimal digits: the
    nearest double, ties to even, [Infinity] from 2^1024 - 2^970 on.  Below
    2^63 the primitive conversion rounds; above, the 63 leading bits with a
    sticky last bit are converted and scaled by the power of two cut off. *)
Definition roundN (n : N) : float :=
  let z := Z.of_N n in
  if (z <? 2 ^ 63)%Z then PrimFloat.of_uint63 (Uint63.of_Z z)
  else
    let k := (Z.log2 z - 62)%Z in
    let q := Z.shiftr z k in
    let sticky := if (Z.land z (Z.ones k) =? 0)%Z then 0%Z else 1%Z in
    Z.ldexp (PrimFloat.of_uint63 (Uint63.of_Z (Z.lor q sticky))) k.

(** [Number(s || 0)] on a string of digits. *)
Definition Number (s : string) : float := roundN (Js.NumberOr0 s).

(** [!x] on a number: true for [0], [-0] and [NaN]. *)
Definition falsy (x : float) : bool :=
  (PrimFloat.eqb x 0 || PrimFloat.is_nan x)%bool.

(** [Math.pow(x, y)].  ECMAScript fixes the result for a [NaN] or zero
    exponent and a [NaN] base; for exponent 1 every engine returns the base;
    everywhere else the result is "implementation-approximated", which is
    the parameter [approx]. *)
Definition pow (approx : float -> float -> float) (x y : float) : float :=
  if PrimFloat.is_nan y then PrimFloat.nan
  else if PrimFloat.eqb y 0 then 1%float
  else if PrimFloat.is_nan x then PrimFloat.nan
  else if PrimFloat.eqb y 1 then x
  else approx x y.

Definition trxHarianBEI : float := 25020000000000%float.

Record Rates : Type := mkRates { opt : float; mod_ : float; pes : float }.

(** [const base = {...}] with its literals as doubles. *)
Definition base : list (string * Rates) :=
  [ ("saham"%string,     {| opt := 0.015; mod_ := 0.008; pes := -0.01 |});
    ("obligasi"%string,  {| opt := 0.007; mod_ := 0.004; pes := -0.003 |});
    ("deposito"%string,  {| opt := 0.004; mod_ := 0.003; pes := 0.002 |});
    ("emas"%string,      {| opt := 0.006; mod_ := 0.004; pes := 0.0002 |});
    ("reksadana"%string,
       {| opt := 0.012; mod_ := 0.006; pes := -0.007 |}) ]%float.

(** The property names every object literal inherits from
    [Object.prototype]; each is a function or, for [__proto__], the
    prototype object itself, hence truthy and without [opt], [mod], [pes]. *)
Definition objectPrototype : list string :=
  [ "constructor"; "__defineGetter__"; "__defineSetter__"; "hasOwnProperty";
    "__lookupGetter__"; "__lookupSetter__"; "isPrototypeOf";
    "propertyIsEnumerable"; "toString"; "valueOf"; "__proto__";
    "toLocaleString" ]%string.

(** What the property read [base[type]] finds. *)
Inductive Member : Type :=
| Own (b : Rates)
| Inherited
| Absent.

Definition member (type : string) : Member :=
  match get base type with
  | Some b => Own b
  | None =>
      if existsb (String.eqb type) objectPrototype then Inherited else Absent
  end.

(** The running scalar [d] of [adjustedRatesFor], accumulated in doubles in
    source order. *)
Definition whatIfDelta (adj : Adj) (type : string) : float :=
  (let d := 0 in
   let d :=
     if inflasiUp adj then
       let d := if String.eqb type "saham" then d - 0.002 else d in
       let d := if String.eqb type "obligasi" then d - 0.001 else d in
       let d := if String.eqb type "deposito" then d + 0.0005 else d in
       let d := if String.eqb type "emas" then d + 0.001 else d in
       let d := if String.eqb type "reksadana" then d - 0.001 else d in
       d
     else d in
   let d :=
     if biDown adj then
       let d := if String.eqb type "saham" then d + 0.0015 else d in
       let d := if String.eqb type "obligasi" then d + 0.001 else d in
       let d := if String.eqb type "deposito" then d - 0.0004 else d in
       let d := if String.eqb type "emas" then d + 0.0002 else d in
       let d := if String.eqb type "reksadana" then d + 0.001 else d in
       d
     else d in
   let d :=
     if ihsgUp adj then
       let d := if String.eqb type "saham" then d + 0.002 else d in
       let d := if String.eqb type "reksadana" then d + 0.0015 else d in
       let d := if String.eqb type "emas" then d - 0.0005 else d in
       d
     else d in
   d)%float.

(** [function adjustedRatesFor(type)]: [None] is [null].  For an inherited
    member [b.opt], [b.mod] and [b.pes] are [undefined], and
    [undefined + d] is [NaN + d]. *)
Definition adjustedRatesFor (adj : Adj) (type : string) : option Rates :=
  let d := whatIfDelta adj type in
  match member type with
  | Absent => None
  | Own b =>
      Some {| opt := opt b + d; mod_ := mod_ b + d; pes := pes b + d * 0.5 |}
  | Inherited =>
      Some {| opt := PrimFloat.nan + d; mod_ := PrimFloat.nan + d;
              pes := PrimFloat.nan + d * 0.5 |}
  end%float.

(** The delta table of the specification, as doubles, and its sum over
    the active toggles in the order the source visits them. *)
Definition deltaTable (t : Toggle) : list (string * float) :=
  match t with
  | InflasiUp =>
      [ ("saham"%string, -0.002); ("obligasi"%string, -0.001);
        ("deposito"%string, 0.0005); ("emas"%string, 0.001);
        ("reksadana"%string, -0.001) ]
  | BiDown =>
      [ ("saham"%string, 0.0015); ("obligasi"%string, 0.001);
        ("deposito"%string, -0.0004); ("emas"%string, 0.0002);
        ("reksadana"%string, 0.001) ]
  | IhsgUp =>
      [ ("saham"%string, 0.002); ("reksadana"%string, 0.0015);
        ("emas"%string, -0.0005) ]
  end%float.

Definition delta (t : Toggle) (type : string) : float :=
  match get (deltaTable t) type with Some c => c | None => 0%float end.

Definition deltaSum (adj : Adj) (type : string) : float :=
  fold_left
    (fun acc t => if active adj t then (acc + delta t type)%float else acc)
    [InflasiUp; BiDown; IhsgUp] 0%float.

Record Result : Type := mkResult {
  optV : float;
  modV : float;
  pesV : float;
  monthlyModeratePct : float;
  annualModerate : float
}.

Record Impact : Type := mkImpact { totalDana : float; impactPct : float }.

(** The cells [calcAll] reads and writes. *)
Record State : Type := mkState {
  investment : string;
  modalStr : string;
  monthsStr : string;
  investorsStr : string;
  adj : Adj;
  result : option Result;
  impact : option Impact
}.

Definition modal (st : State) : float := Number (onlyDigits (modalStr st)).
Definition months (st : State) : float := Number (onlyDigits (monthsStr st)).
Definition investors (st : State) : float :=
  Number (onlyDigits (investorsStr st)).

Definition setResult (v : Result) (st : State) : State :=
  {| investment := investment st; modalStr := modalStr st;
     monthsStr := monthsStr st; investorsStr := investorsStr st;
     adj := adj st; result := Some v; impact := impact st |}.

Definition setImpact (v : Impact) (st : State) : State :=
  {| investment := investment st; modalStr := modalStr st;
     monthsStr := monthsStr st; investorsStr := investorsStr st;
     adj := adj st; result := result st; impact := Some v |}.

(** [const grow = (rate) => modal * Math.pow(1 + rate, months)] *)
Definition grow (approx : float -> float -> float)
    (modal months rate : float) : float :=
  (modal * pow approx (1 + rate) months)%float.

(** [function calcAll()] on doubles. *)
Definition calcAll (approx : float -> float -> float) (st : State) : State :=
  match adjustedRatesFor (adj st) (investment st) with
  | None => st
  | Some r =>
      if (falsy (modal st) || falsy (months st))%bool then st
      else
        let optV := grow approx (modal st) (months st) (opt r) in
        let modV := grow approx (modal st) (months st) (mod_ r) in
        let pesV := grow approx (modal st) (months st) (pes r) in
        let monthlyModeratePct :=
          ((pow approx (modV / modal st) (1 / months st) - 1) * 100)%float in
        let annualModerate :=
          ((pow approx (1 + mod_ r) 12 - 1) * 100)%float in
        let st1 :=
          setResult {| optV := optV; modV := modV; pesV := pesV;
                       monthlyModeratePct := monthlyModeratePct;
                       annualModerate := annualModerate |} st in
        let totalDana := (investors st * modal st)%float in
        let impactPct := (8 * (totalDana / trxHarianBEI))%float in
        setImpact {| totalDana := totalDana; impactPct := impactPct |} st1
  end.


(** The state of the first render with a principal and a duration typed:
    the instrument is still the placeholder option of the select. *)
Definition stPlaceholder : State :=
  {| investment := ""; modalStr := "1000000"; monthsStr := "12";
     investorsStr := "18000000"; adj := adjOff;
     result := None; impact := None |}.

End B64.


(** * Properties *)

(** ** Proof tools *)

(** Evaluation of the string tests and table lookups of a closed call,
    leaving the real arithmetic in place. *)
Ltac eval_tables :=
  cbv - [Rplus Rminus Rmult Rdiv Rinv Ropp IZR INR Rlt Rle Rgt Rge
         pow Rpower Rmax].

(** Case analysis on a key that is one of the five instruments. *)
Ltac instrument_cases H :=
  unfold instruments in H; simpl in H;
  repeat (destruct H as [H | H]; [subst | ]); [ .. | contradiction].

Ltac toggle_cases a := destruct a as [[] [] []].


(** ** Numbers *)

Lemma N2R_nonneg (n : N) : 0 <= N2R n.
Proof. unfold N2R. apply IZR_le. lia. Qed.

Lemma N2R_pos (n : N) : (0 < n)%N -> 0 < N2R n.
Proof. intros H. unfold N2R. apply IZR_lt. lia. Qed.


Lemma N2R_INR (n : N) : N2R n = INR (N.to_nat n).
Proof.
  unfold N2R. rewrite INR_IZR_INZ. f_equal. lia.
Qed.

Lemma falsy_false (n : N) : (0 < n)%N -> Js.falsy n = false.
Proof. intros H. unfold Js.falsy. apply N.eqb_neq. lia. Qed.

Lemma falsy_true (n : N) : ~ (0 < n)%N -> Js.falsy n = true.
Proof. intros H. unfold Js.falsy. apply N.eqb_eq. lia. Qed.

Lemma trxHarianBEI_pos : 0 < macro.trxHarianBEI.
Proof. unfold macro.trxHarianBEI. lra. Qed.

(** On a positive base the two readings of [Math.pow] agree at integer
    exponents. *)
Lemma pow_pow_int (x : R) (n : N) :
  0 < x -> Math.pow x (N2R n) = Math.pow_int x n.
Proof.
  intros Hx. unfold Math.pow, Math.pow_int.
  rewrite N2R_INR. now apply Rpower_pow.
Qed.

(** ** Rate table *)

Lemma get_base_instruments (type : string) (b : Rates) :
  get base type = Some b -> In type instruments.
Proof.
  unfold base, instruments; simpl; intros H.
  repeat match type of H with
         | context [String.eqb type ?k] =>
             destruct (String.eqb_spec type k) as [-> | _]; [ tauto | ]
         end.
  discriminate H.
Qed.

Lemma get_base_known (type : string) :
  In type instruments -> exists b, get base type = Some b.
Proof.
  intros H. instrument_cases H; eexists; reflexivity.
Qed.

Lemma adjustedRatesFor_known (a : Adj) (type : string) (r : Rates) :
  adjustedRatesFor a type = Some r -> In type instruments.
Proof.
  unfold adjustedRatesFor. destruct (get base type) eqn:E; [ | discriminate ].
  intros _. eapply get_base_instruments; eauto.
Qed.

(** The chain of conditional updates computes the table sum. *)
Lemma whatIfDelta_deltaSum (a : Adj) (type : string) :
  In type instruments -> whatIfDelta a type = deltaSum a type.
Proof.
  intros H. instrument_cases H; toggle_cases a; eval_tables; lra.
Qed.

(** No instrument is shifted by more than half a percentage point. *)
Lemma whatIfDelta_small (a : Adj) (type : string) :
  In type instruments -> -0.005 < whatIfDelta a type < 0.005.
Proof.
  intros H. instrument_cases H; toggle_cases a; eval_tables; lra.
Qed.

Lemma base_rates_bounds (type : string) (b : Rates) :
  get base type = Some b ->
  -0.01 <= opt b /\ -0.01 <= mod_ b /\ -0.01 <= pes b.
Proof.
  intros H. pose proof (get_base_instruments _ _ H) as Hin.
  instrument_cases Hin; injection H as <-; eval_tables; lra.
Qed.

(** Every adjusted monthly rate stays above -100 %: each growth factor
    [1 + rate] is positive. *)
Lemma adjusted_rates_above_minus_one (a : Adj) (type : string) (r : Rates) :
  adjustedRatesFor a type = Some r ->
  -1 < opt r /\ -1 < mod_ r /\ -1 < pes r.
Proof.
  intros H. pose proof (adjustedRatesFor_known _ _ _ H) as Hin.
  unfold adjustedRatesFor in H.
  destruct (get base type) as [b|] eqn:Hb; [ | discriminate H ].
  pose proof (base_rates_bounds _ _ Hb) as (Ho & Hm & Hp).
  pose proof (whatIfDelta_small a type Hin) as Hd.
  injection H as <-. simpl. lra.
Qed.

(** The adjusted rates of saham with only the IHSG toggle on: the
    pessimistic shift, read back as adjusted minus base, is
    0.0009999999999999992 while half the moderate shift is 0.001; the two
    doubles differ, so the half relation is not an exact identity of the
    code's arithmetic. *)
Lemma half_delta_not_exact :
  exists b r,
    get B64.base "saham" = Some b /\
    B64.adjustedRatesFor (mkAdj false false true) "saham" = Some r /\
    (B64.pes r - B64.pes b = 0.0009999999999999992)%float /\
    (0.5 * (B64.mod_ r - B64.mod_ b) = 0.001)%float /\
    (B64.pes r - B64.pes b =? 0.5 * (B64.mod_ r - B64.mod_ b))%float = false.
Proof.
  do 2 eexists.
  split; [ reflexivity | ].
  split; [ reflexivity | ].
  repeat split; vm_compute; reflexivity.
Qed.

(** C2, on doubles. For each of the five instruments and each of the eight
    toggle combinations, [adjustedRatesFor] returns [opt + d], [mod + d]
    and [pes + d * 0.5] in double arithmetic, where [d] is the sum of the
    table deltas of the active toggles, added from 0 in the order
    inflation, BI rate, IHSG.  The pessimistic shift (adjusted minus base)
    is half the moderate shift up to the rounding of those operations: the
    two differ by at most 2^-60.  With all toggles off the base rates are
    returned unchanged. *)
Theorem adjustedRatesFor_table (a : Adj) (type : string) :
  In type instruments ->
  exists b r,
    get B64.base type = Some b /\
    B64.adjustedRatesFor a type = Some r /\
    (B64.opt r = B64.opt b + B64.deltaSum a type)%float /\
    (B64.mod_ r = B64.mod_ b + B64.deltaSum a type)%float /\
    (B64.pes r = B64.pes b + B64.deltaSum a type * 0.5)%float /\
    (PrimFloat.abs ((B64.pes r - B64.pes b) - 0.5 * (B64.mod_ r - B64.mod_ b))
       <=? 0x1p-60)%float = true /\
    (a = adjOff -> r = b).
Proof.
  intros Hin.
  instrument_cases Hin; toggle_cases a;
    (do 2 eexists;
     split; [ reflexivity | ];
     split; [ reflexivity | ];
     split; [ vm_compute; reflexivity | ];
     split; [ vm_compute; reflexivity | ];
     split; [ vm_compute; reflexivity | ];
     split; [ vm_compute; reflexivity | ];
     first [ intros E; discriminate E | intros _; reflexivity ]).
Qed.

Lemma adjustedRatesFor_table_witness :
  In "emas"%string instruments /\
  exists b r,
    get B64.base "emas" = Some b /\
    B64.adjustedRatesFor (mkAdj true true true) "emas" = Some r /\
    (B64.opt r =
     B64.opt b + B64.deltaSum (mkAdj true true true) "emas")%float /\
    (B64.mod_ r =
     B64.mod_ b + B64.deltaSum (mkAdj true true true) "emas")%float /\
    (B64.pes r =
     B64.pes b + B64.deltaSum (mkAdj true true true) "emas" * 0.5)%float /\
    (PrimFloat.abs ((B64.pes r - B64.pes b) - 0.5 * (B64.mod_ r - B64.mod_ b))
       <=? 0x1p-60)%float = true /\
    (mkAdj true true true = adjOff -> r = b).
Proof.
  assert (H : In "emas"%string instruments) by (simpl; tauto).
  split; [ exact H | ].
  exact (adjustedRatesFor_table (mkAdj true true true) "emas" H).
Defined.

(** ** The entry point [calcAll] *)

(** When the three guards pass, [calcAll] stores the projection and the
    national impact computed from the current inputs. *)
Lemma calcAll_runs (st : State) (r : Rates) :
  adjustedRatesFor (adj st) (investment st) = Some r ->
  (0 < modal st)%N -> (1 <= months st)%N ->
  calcAll st =
    setImpact (nationalImpact (modal st) (investors st))
      (setResult (scenarioResult r (modal st) (months st)) st).
Proof.
  intros Hr Hm Hd. unfold calcAll. rewrite Hr.
  rewrite (falsy_false (modal st)) by assumption.
  rewrite (falsy_false (months st)) by lia.
  reflexivity.
Qed.

Lemma calcAll_result (st : State) (r : Rates) :
  adjustedRatesFor (adj st) (investment st) = Some r ->
  (0 < modal st)%N -> (1 <= months st)%N ->
  result (calcAll st) = Some (scenarioResult r (modal st) (months st)).
Proof. intros Hr Hm Hd. now rewrite (calcAll_runs st r). Qed.

Lemma calcAll_impact (st : State) (r : Rates) :
  adjustedRatesFor (adj st) (investment st) = Some r ->
  (0 < modal st)%N -> (1 <= months st)%N ->
  impact (calcAll st) = Some (nationalImpact (modal st) (investors st)).
Proof. intros Hr Hm Hd. now rewrite (calcAll_runs st r). Qed.

Lemma stExample_modal : modal stExample = 1000000%N.
Proof. reflexivity. Qed.

Lemma stExample_months : months stExample = 12%N.
Proof. reflexivity. Qed.

Lemma stExample_investors : investors stExample = 18000000%N.
Proof. reflexivity. Qed.

Lemma stExample_rates :
  adjustedRatesFor (adj stExample) (investment stExample) = Some sahamRates.
Proof. reflexivity. Qed.

(** C1. For every rate triple, principal [m > 0] and duration [d >= 1] the
    three scenario values are [m * (1 + rate) ^ d] for the optimistic,
    moderate and pessimistic rate; for [d = 1] each is [m * (1 + rate)];
    and these are the values [calcAll] stores when the triple is the
    adjusted one of the chosen instrument. *)
Theorem scenario_values_compound (r : Rates) (m d : N) :
  (0 < m)%N -> (1 <= d)%N ->
  let res := scenarioResult r m d in
  optV res = N2R m * (1 + opt r) ^ N.to_nat d /\
  modV res = N2R m * (1 + mod_ r) ^ N.to_nat d /\
  pesV res = N2R m * (1 + pes r) ^ N.to_nat d /\
  (d = 1%N ->
     optV res = N2R m * (1 + opt r) /\
     modV res = N2R m * (1 + mod_ r) /\
     pesV res = N2R m * (1 + pes r)) /\
  (forall st : State,
     modal st = m -> months st = d ->
     adjustedRatesFor (adj st) (investment st) = Some r ->
     result (calcAll st) = Some res).
Proof.
  intros Hm Hd res. subst res.
  split; [ reflexivity | ].
  split; [ reflexivity | ].
  split; [ reflexivity | ].
  split.
  - intros ->. cbn. unfold grow, Math.pow_int. simpl.
    repeat split; ring.
  - intros st <- <- Hr. now apply calcAll_result.
Qed.

Lemma scenario_values_compound_witness :
  (0 < 1000000)%N /\ (1 <= 12)%N /\
  optV (scenarioResult sahamRates 1000000 12)
    = N2R 1000000 * (1 + opt sahamRates) ^ N.to_nat 12 /\
  result (calcAll stExample) = Some (scenarioResult sahamRates 1000000 12).
Proof.
  assert (H0 : (0 < 1000000)%N) by reflexivity.
  assert (H1 : (1 <= 12)%N) by (intro H; discriminate H).
  pose proof (scenario_values_compound sahamRates 1000000 12 H0 H1) as H.
  cbv zeta in H.
  destruct H as (Ho & _ & _ & _ & Hst).
  split; [ exact H0 | ].
  split; [ exact H1 | ].
  split; [ exact Ho | ].
  apply (Hst stExample).
  - exact stExample_modal.
  - exact stExample_months.
  - exact stExample_rates.
Defined.


(** ** Rates derived from the moderate scenario *)

(** The base of the root taken by [calcAll] is a positive number whenever
    the guards pass, which is the domain on which [Math.pow] is modelled. *)
Lemma root_base_positive (a : Adj) (type : string) (r : Rates) (m d : N) :
  adjustedRatesFor a type = Some r -> (0 < m)%N ->
  0 < modV (scenarioResult r m d) / N2R m.
Proof.
  intros Hr Hm.
  destruct (adjusted_rates_above_minus_one a type r Hr) as (_ & Hmod & _).
  pose proof (N2R_pos m Hm) as Hpos.
  simpl. unfold grow, Math.pow_int.
  apply Rdiv_lt_0_compat; [ | assumption ].
  apply Rmult_lt_0_compat; [ assumption | ].
  apply pow_lt. lra.
Qed.

(** C6. For a positive principal and a duration of at least one month,
    the annualised moderate rate of the projection is
    [((1 + mod) ^ 12 - 1) * 100] in the adjusted moderate monthly rate, so
    two projections that differ only in the duration have the same
    annualised rate.  [calcAll] stores exactly this projection: before and
    after the duration field alone is edited, the stored result is the
    projection of the current inputs, and its annualised rate is that
    formula both times. *)
Theorem annualModerate_duration_independent (r : Rates) (m d d' : N) :
  (0 < m)%N -> (1 <= d)%N -> (1 <= d')%N ->
  annualModerate (scenarioResult r m d) = ((1 + mod_ r) ^ 12 - 1) * 100 /\
  annualModerate (scenarioResult r m d')
    = annualModerate (scenarioResult r m d) /\
  (forall (st : State) (s : string),
     modal st = m -> months st = d -> months (setMonthsStr s st) = d' ->
     adjustedRatesFor (adj st) (investment st) = Some r ->
     result (calcAll st) = Some (scenarioResult r m d) /\
     result (calcAll (setMonthsStr s st)) = Some (scenarioResult r m d') /\
     exists res res',
       result (calcAll st) = Some res /\
       result (calcAll (setMonthsStr s st)) = Some res' /\
       annualModerate res = ((1 + mod_ r) ^ 12 - 1) * 100 /\
       annualModerate res' = ((1 + mod_ r) ^ 12 - 1) * 100).
Proof.
  intros Hm Hd Hd'.
  split; [ reflexivity | ].
  split; [ reflexivity | ].
  intros st s <- <- Hs Hr.
  assert (E : result (calcAll st)
              = Some (scenarioResult r (modal st) (months st)))
    by now apply calcAll_result.
  assert (E' : result (calcAll (setMonthsStr s st))
               = Some (scenarioResult r (modal st) d')).
  { rewrite <- Hs.
    apply (calcAll_result (setMonthsStr s st) r); try assumption.
    now rewrite Hs. }
  split; [ exact E | ].
  split; [ exact E' | ].
  exists (scenarioResult r (modal st) (months st)).
  exists (scenarioResult r (modal st) d').
  split; [ exact E | ].
  split; [ exact E' | ].
  split; reflexivity.
Qed.

Lemma annualModerate_duration_independent_witness :
  (0 < 1000000)%N /\ (1 <= 12)%N /\ (1 <= 600)%N /\
  annualModerate (scenarioResult sahamRates 1000000 600)
    = annualModerate (scenarioResult sahamRates 1000000 12) /\
  result (calcAll stExample) = Some (scenarioResult sahamRates 1000000 12) /\
  result (calcAll (setMonthsStr "600 bulan" stExample))
    = Some (scenarioResult sahamRates 1000000 600).
Proof.
  assert (H0 : (0 < 1000000)%N) by reflexivity.
  assert (H1 : (1 <= 12)%N) by (intro H; discriminate H).
  assert (H2 : (1 <= 600)%N) by (intro H; discriminate H).
  destruct (annualModerate_duration_independent sahamRates 1000000 12 600
              H0 H1 H2) as (_ & Heq & Hst).
  split; [ exact H0 | ].
  split; [ exact H1 | ].
  split; [ exact H2 | ].
  split; [ exact Heq | ].
  destruct (Hst stExample "600 bulan"%string) as (E & E' & _).
  - exact stExample_modal.
  - exact stExample_months.
  - reflexivity.
  - exact stExample_rates.
  - split; [ exact E | exact E' ].
Defined.

(** C7. Round trip of compounding: for a principal [m > 0], a duration
    [d >= 1] and a moderate rate above -1, the monthly rate recovered from
    the moderate value, [((modV / m) ^ (1 / d) - 1) * 100], is the rate that
    produced it, times 100; this is the value [calcAll] stores. *)
Theorem monthlyModeratePct_roundtrip (r : Rates) (m d : N) :
  (0 < m)%N -> (1 <= d)%N -> -1 < mod_ r ->
  let res := scenarioResult r m d in
  monthlyModeratePct res
    = (Math.pow (modV res / N2R m) (1 / N2R d) - 1) * 100 /\
  monthlyModeratePct res = mod_ r * 100 /\
  (forall st : State,
     modal st = m -> months st = d ->
     adjustedRatesFor (adj st) (investment st) = Some r ->
     result (calcAll st) = Some res).
Proof.
  intros Hm Hd Hr res. subst res.
  split; [ reflexivity | ].
  split.
  - pose proof (N2R_pos m Hm) as Hmpos.
    assert (Hdpos : 0 < N2R d) by (apply N2R_pos; lia).
    simpl. unfold grow, Math.pow, Math.pow_int.
    replace (N2R m * (1 + mod_ r) ^ N.to_nat d / N2R m)
      with ((1 + mod_ r) ^ N.to_nat d) by (field; lra).
    rewrite <- Rpower_pow by lra.
    rewrite Rpower_mult.
    rewrite <- N2R_INR.
    replace (N2R d * (1 / N2R d)) with 1 by (field; lra).
    rewrite Rpower_1 by lra.
    ring.
  - intros st <- <- Hst. now apply calcAll_result.
Qed.

Lemma monthlyModeratePct_roundtrip_witness :
  (0 < 1000000)%N /\ (1 <= 12)%N /\ -1 < mod_ sahamRates /\
  monthlyModeratePct (scenarioResult sahamRates 1000000 12)
    = mod_ sahamRates * 100 /\
  result (calcAll stExample) = Some (scenarioResult sahamRates 1000000 12).
Proof.
  assert (H0 : (0 < 1000000)%N) by reflexivity.
  assert (H1 : (1 <= 12)%N) by (intro H; discriminate H).
  assert (H2 : -1 < mod_ sahamRates) by (simpl; lra).
  destruct (monthlyModeratePct_roundtrip sahamRates 1000000 12 H0 H1 H2)
    as (_ & Hrt & Hst).
  split; [ exact H0 | ].
  split; [ exact H1 | ].
  split; [ exact H2 | ].
  split; [ exact Hrt | ].
  apply (Hst stExample).
  - exact stExample_modal.
  - exact stExample_months.
  - exact stExample_rates.
Defined.

(** ** Monotonicity in the principal *)





(** ** National liquidity impact *)

Lemma impactPct_exceeds (B : R) :
  exists m i : N,
    (0 < m)%N /\ (0 < i)%N /\ B < impactPct (nationalImpact m i).
Proof.
  pose proof trxHarianBEI_pos as Ht.
  set (z := Z.max 1 (up (B * macro.trxHarianBEI / 8))).
  assert (Hz : (1 <= z)%Z) by (unfold z; lia).
  assert (Hup : B * macro.trxHarianBEI / 8 < IZR z).
  { destruct (archimed (B * macro.trxHarianBEI / 8)) as [Hgt _].
    apply Rlt_le_trans with (IZR (up (B * macro.trxHarianBEI / 8))).
    - exact Hgt.
    - apply IZR_le. unfold z. lia. }
  exists (Z.to_N z), 1%N.
  split; [ lia | ].
  split; [ lia | ].
  simpl. unfold N2R. rewrite Z2N.id by lia. simpl Z.of_N.
  set (q := 1 * IZR z / macro.trxHarianBEI).
  assert (Hq : IZR z = q * macro.trxHarianBEI) by (unfold q; field; lra).
  rewrite Hq in Hup. nra.
Qed.

(** C3. The national impact is [totalDana = principal * investors] and
    [impactPct = 8 * (totalDana / trxHarianBEI)], with no upper clamp: every
    bound is exceeded by the [impactPct] of some positive inputs.  This is
    the impact [calcAll] stores whenever it runs. *)
Theorem nationalImpact_uncapped (m i : N) :
  let imp := nationalImpact m i in
  totalDana imp = N2R m * N2R i /\
  impactPct imp = 8 * (totalDana imp / macro.trxHarianBEI) /\
  (forall B : R,
     exists m' i' : N,
       (0 < m')%N /\ (0 < i')%N /\ B < impactPct (nationalImpact m' i')) /\
  (forall (st : State) (r : Rates),
     modal st = m -> investors st = i ->
     adjustedRatesFor (adj st) (investment st) = Some r ->
     (0 < m)%N -> (1 <= months st)%N ->
     impact (calcAll st) = Some imp).
Proof.
  intros imp. subst imp.
  split; [ simpl; ring | ].
  split; [ reflexivity | ].
  split; [ exact impactPct_exceeds | ].
  intros st r <- <- Hr Hm Hd. now apply (calcAll_impact st r).
Qed.

Lemma nationalImpact_uncapped_witness :
  impact (calcAll stExample) = Some (nationalImpact 1000000 18000000) /\
  impactPct (nationalImpact 1000000 18000000)
    = 8 * (18000000000000 / 25020000000000).
Proof.
  destruct (nationalImpact_uncapped 1000000 18000000)
    as (Htot & Hpct & _ & Hst).
  split.
  - apply (Hst stExample sahamRates).
    + exact stExample_modal.
    + exact stExample_investors.
    + exact stExample_rates.
    + reflexivity.
    + rewrite stExample_months. intro H; discriminate H.
  - rewrite Hpct, Htot. unfold macro.trxHarianBEI, N2R. simpl Z.of_N.
    replace (IZR 1000000 * IZR 18000000) with 18000000000000 by lra.
    reflexivity.
Defined.

(** ** Inflation feedback *)

(** C4. The inflation feedback is defined for every input.  The ratio to
    GDP is [(principal * investors / 1e12) / pdb] when [pdb > 0] and [0]
    otherwise, in which case the additional inflation is [0] and the
    simulated inflation is the baseline; the additional inflation is
    [k * (1 - porsiProduktif) * ratio * 100] and the simulated inflation is
    the baseline plus the additional inflation. *)
Theorem inflasi_feedback (st : State) :
  (0 < pdb st ->
   Inflasi.ratioDanaPdb st
     = (N2R (modal st) * N2R (investors st) / 1000000000000) / pdb st) /\
  (pdb st <= 0 ->
   Inflasi.ratioDanaPdb st = 0 /\
   Inflasi.tambahanInflasi st = 0 /\
   Inflasi.inflasiSimulasi st = Inflasi.inflasiAwal) /\
  Inflasi.tambahanInflasi st
    = Inflasi.k * (1 - porsiProduktif st) * Inflasi.ratioDanaPdb st * 100 /\
  Inflasi.inflasiSimulasi st
    = Inflasi.inflasiAwal + Inflasi.tambahanInflasi st.
Proof.
  split.
  - intros Hpos. unfold Inflasi.ratioDanaPdb.
    destruct (Rlt_dec 0 (pdb st)) as [_ | Hn]; [ reflexivity | ].
    contradiction.
  - split; [ | split; reflexivity ].
    intros Hle.
    assert (Hr : Inflasi.ratioDanaPdb st = 0).
    { unfold Inflasi.ratioDanaPdb.
      destruct (Rlt_dec 0 (pdb st)) as [Hlt | _]; [ lra | reflexivity ]. }
    assert (Ht : Inflasi.tambahanInflasi st = 0).
    { unfold Inflasi.tambahanInflasi. rewrite Hr. ring. }
    split; [ exact Hr | ].
    split; [ exact Ht | ].
    unfold Inflasi.inflasiSimulasi. rewrite Ht. ring.
Qed.

Lemma inflasi_feedback_witness :
  (0 < pdb stExample /\
   Inflasi.ratioDanaPdb stExample = 0.0009 /\
   Inflasi.tambahanInflasi stExample = 0.00135) /\
  (pdb stNoPdb <= 0 /\
   Inflasi.inflasiSimulasi stNoPdb = Inflasi.inflasiAwal).
Proof.
  split.
  - destruct (inflasi_feedback stExample) as (Hratio & _ & Hadd & _).
    assert (Hpos : 0 < pdb stExample) by (simpl; lra).
    assert (Hr : Inflasi.ratioDanaPdb stExample = 0.0009).
    { rewrite (Hratio Hpos).
      rewrite stExample_modal, stExample_investors.
      unfold N2R. simpl Z.of_N. simpl pdb. lra. }
    split; [ exact Hpos | ].
    split; [ exact Hr | ].
    rewrite Hadd, Hr. unfold Inflasi.k. simpl porsiProduktif. lra.
  - destruct (inflasi_feedback stNoPdb) as (_ & Hzero & _).
    assert (Hle : pdb stNoPdb <= 0) by (simpl; lra).
    split; [ exact Hle | ].
    exact (proj2 (proj2 (Hzero Hle))).
Defined.

(** ** Correlation curve *)

Lemma push_fold {A B : Type} (f : A -> B) (l : list A) (acc : list B) :
  fold_left (fun pts i => pts ++ [f i]) l acc = acc ++ map f l.
Proof.
  revert acc. induction l as [| a l IH]; intros acc; simpl.
  - now rewrite app_nil_r.
  - rewrite IH. now rewrite <- app_assoc.
Qed.

Lemma corrPoints_zero (m i : N) :
  (m = 0 \/ i = 0)%N -> corrPoints m i = [].
Proof.
  intros [-> | ->]; unfold corrPoints, Js.falsy.
  - reflexivity.
  - rewrite N.eqb_refl. now rewrite orb_true_r.
Qed.

(** Every pushed [y] is the clamped impact of the pushed [x]. *)
Lemma corrPoint_y_of_x (m i : N) (n k : nat) :
  y (corrPoint m i n k)
    = Math.max 0 (8 * (x (corrPoint m i n k) * N2R m / macro.trxHarianBEI)).
Proof. reflexivity. Qed.

Lemma impact_of_x_monotone (m : N) (a b : R) :
  a <= b ->
  8 * (a * N2R m / macro.trxHarianBEI) <= 8 * (b * N2R m / macro.trxHarianBEI).
Proof.
  intros Hab. pose proof trxHarianBEI_pos as Ht.
  pose proof (N2R_nonneg m) as Hm.
  assert (H : a * N2R m / macro.trxHarianBEI
              <= b * N2R m / macro.trxHarianBEI).
  { unfold Rdiv. apply Rmult_le_compat_r.
    - left. now apply Rinv_0_lt_compat.
    - now apply Rmult_le_compat_r. }
  lra.
Qed.

(** The curve of a positive principal [m] and investor count [i]. *)
Section NonEmptyCurve.

Variables m i : N.
Hypothesis Hm : (0 < m)%N.
Hypothesis Hi : (0 < i)%N.

(** The loop yields the points of iterations 1 to 10, in that order. *)
Lemma corrPoints_map :
  corrPoints m i = map (corrPoint m i 10) (seq 1 10).
Proof.
  unfold corrPoints.
  rewrite (falsy_false m), (falsy_false i) by assumption.
  cbv beta iota zeta delta [orb]. now rewrite push_fold.
Qed.

Lemma corrPoints_in (p : Point) :
  In p (corrPoints m i) ->
  exists k, (1 <= k <= 10)%nat /\ p = corrPoint m i 10 k.
Proof.
  intros Hin. rewrite corrPoints_map in Hin.
  apply in_map_iff in Hin. destruct Hin as (k & <- & Hk).
  apply in_seq in Hk. exists k. split; [ lia | reflexivity ].
Qed.

Lemma corrYPct_pos (k : nat) :
  (1 <= k)%nat -> 0 < corrYPct m i 10 k.
Proof.
  intros Hk. unfold corrYPct.
  pose proof trxHarianBEI_pos as Ht.
  pose proof (N2R_pos m Hm) as Hmp. pose proof (N2R_pos i Hi) as Hip.
  assert (Hkp : 0 < INR k) by (apply lt_0_INR; lia).
  assert (H10 : 0 < INR 10) by (apply lt_0_INR; lia).
  apply Rmult_lt_0_compat; [ lra | ].
  apply Rdiv_lt_0_compat; [ | assumption ].
  apply Rmult_lt_0_compat; [ | assumption ].
  apply Rmult_lt_0_compat; [ assumption | ].
  now apply Rdiv_lt_0_compat.
Qed.

End NonEmptyCurve.

(** C9. For a positive principal and investor count the curve has exactly
    ten points; the point of index [j] (from 0) is sampled at the fraction
    [(j + 1) / 10] of the investor count, so the samples run through 10 %,
    20 %, ..., 100 %; and [y] is non-decreasing in [x] along the curve.
    The curve is empty when the principal or the investor count is zero. *)
Theorem corrPoints_curve (m i : N) :
  ((m = 0 \/ i = 0)%N -> corrPoints m i = []) /\
  ((0 < m)%N -> (0 < i)%N ->
   length (corrPoints m i) = 10%nat /\
   (forall j : nat, (j < 10)%nat ->
      exists p, nth_error (corrPoints m i) j = Some p /\
                x p = N2R i * (INR (S j) / 10)) /\
   (forall p q : Point,
      In p (corrPoints m i) -> In q (corrPoints m i) ->
      x p <= x q -> y p <= y q)).
Proof.
  split; [ apply corrPoints_zero | ].
  intros Hm Hi.
  split; [ | split ].
  - rewrite (corrPoints_map m i Hm Hi).
    rewrite length_map. apply length_seq.
  - intros j Hj. rewrite (corrPoints_map m i Hm Hi).
    exists (corrPoint m i 10 (S j)). split.
    + rewrite nth_error_map.
      rewrite nth_error_seq.
      destruct (Nat.ltb_spec j 10) as [_ | Hge]; [ reflexivity | lia ].
    + unfold corrPoint. cbv zeta. unfold x.
      replace (INR 10) with 10 by (simpl; lra). reflexivity.
  - intros p q Hp Hq Hxy.
    destruct (corrPoints_in m i Hm Hi p Hp) as (kp & _ & ->).
    destruct (corrPoints_in m i Hm Hi q Hq) as (kq & _ & ->).
    rewrite !corrPoint_y_of_x.
    pose proof (impact_of_x_monotone m _ _ Hxy) as Hmono.
    unfold Math.max, Rmax.
    repeat destruct Rle_dec; lra.
Qed.

Lemma corrPoints_curve_witness :
  corrPoints 0 18000000 = [] /\
  (0 < 1000000)%N /\ (0 < 18000000)%N /\
  length (corrPoints 1000000 18000000) = 10%nat /\
  exists p, nth_error (corrPoints 1000000 18000000) 9 = Some p /\
            x p = N2R 18000000 * (INR 10 / 10).
Proof.
  destruct (corrPoints_curve 0 18000000) as (Hz & _).
  destruct (corrPoints_curve 1000000 18000000) as (_ & Hc).
  assert (H0 : (0 < 1000000)%N) by reflexivity.
  assert (H1 : (0 < 18000000)%N) by reflexivity.
  destruct (Hc H0 H1) as (Hlen & Hnth & _).
  split; [ apply Hz; left; reflexivity | ].
  split; [ exact H0 | ].
  split; [ exact H1 | ].
  split; [ exact Hlen | ].
  apply (Hnth 9%nat). apply Nat.ltb_lt. reflexivity.
Defined.

(** C10. The zero floor of the curve is never active: whenever the curve is
    non-empty (positive principal and investor count), the impact sampled at
    each of the ten iterations is strictly positive before the clamp, so
    [Math.max(0, yPct)] returns [yPct], and each point's [y] is the
    unclamped impact of its [x]. *)
Theorem corrPoints_clamp_unreachable (m i : N) :
  (0 < m)%N -> (0 < i)%N ->
  (forall k : nat, (1 <= k <= 10)%nat ->
     0 < corrYPct m i 10 k /\
     Math.max 0 (corrYPct m i 10 k) = corrYPct m i 10 k) /\
  (forall p : Point, In p (corrPoints m i) ->
     0 < y p /\ y p = 8 * (x p * N2R m / macro.trxHarianBEI)).
Proof.
  intros Hm Hi.
  assert (Hk : forall k : nat, (1 <= k <= 10)%nat ->
     0 < corrYPct m i 10 k /\
     Math.max 0 (corrYPct m i 10 k) = corrYPct m i 10 k).
  { intros k [Hk1 _].
    pose proof (corrYPct_pos m i Hm Hi k Hk1) as Hpos.
    split; [ exact Hpos | ].
    unfold Math.max. apply Rmax_right. lra. }
  split; [ exact Hk | ].
  intros p Hp.
  destruct (corrPoints_in m i Hm Hi p Hp) as (k & Hrange & ->).
  destruct (Hk k Hrange) as (Hpos & Hmax).
  change (y (corrPoint m i 10 k)) with (Math.max 0 (corrYPct m i 10 k)).
  rewrite Hmax. split; [ exact Hpos | reflexivity ].
Qed.

Lemma corrPoints_clamp_unreachable_witness :
  (0 < 1)%N /\ (0 < 1)%N /\
  0 < corrYPct 1 1 10 1 /\
  Math.max 0 (corrYPct 1 1 10 1) = corrYPct 1 1 10 1.
Proof.
  assert (H0 : (0 < 1)%N) by reflexivity.
  destruct (corrPoints_clamp_unreachable 1 1 H0 H0) as (Hk & _).
  split; [ exact H0 | ].
  split; [ exact H0 | ].
  apply (Hk 1%nat). split.
  - apply Nat.leb_le. reflexivity.
  - apply Nat.leb_le. reflexivity.
Defined.

(** ** End-to-end examples *)

(** Input sanitising: separators and letters typed into a numeric field are
    dropped before [Number] reads it. *)
Example onlyDigits_strips : onlyDigits "Rp 1.000.000,-" = "1000000"%string.
Proof. reflexivity. Qed.

Example number_of_empty : Js.NumberOr0 (onlyDigits "bulan") = 0%N.
Proof. reflexivity. Qed.

(** Saham under an inflation shock: the moderate rate drops from 0.008 to
    0.006 and the pessimistic rate by half as much. *)
Example saham_inflasiUp :
  exists r,
    adjustedRatesFor (mkAdj true false false) "saham" = Some r /\
    opt r = 0.013 /\ mod_ r = 0.006 /\ pes r = -0.011.
Proof.
  eexists. split; [ reflexivity | ].
  eval_tables. repeat split; lra.
Qed.

(** An instrument key outside the table is not computable. *)
Example unknown_instrument :
  adjustedRatesFor adjOff "" = None /\
  adjustedRatesFor adjOff "properti" = None.
Proof. split; reflexivity. Qed.

(** One month of saham at the moderate rate. *)
Example one_month_moderate :
  modV (scenarioResult sahamRates 1000000 1) = 1008000.
Proof.
  simpl. unfold grow, Math.pow_int, N2R. simpl. lra.
Qed.

(** The last point of the curve is the headline impact. *)
Example corrPoints_last :
  exists p,
    nth_error (corrPoints 1000000 18000000) 9 = Some p /\
    x p = 18000000 /\
    y p = impactPct (nationalImpact 1000000 18000000).
Proof.
  eexists. split; [ reflexivity | ].
  pose proof trxHarianBEI_pos as Ht.
  assert (Hy : corrYPct 1000000 18000000 10 10
               = impactPct (nationalImpact 1000000 18000000)).
  { unfold corrYPct, nationalImpact, impactPct, N2R. simpl. field. lra. }
  split.
  - unfold corrPoint, x, N2R. simpl. lra.
  - change (y (corrPoint 1000000 18000000 10 10))
      with (Math.max 0 (corrYPct 1000000 18000000 10 10)).
    rewrite Hy. unfold Math.max. apply Rmax_right.
    unfold nationalImpact, impactPct, N2R. simpl.
    apply Rmult_le_pos; [ lra | ].
    apply Rmult_le_pos; [ lra | ].
    left. now apply Rinv_0_lt_compat.
Qed.

(** * Further properties of the page *)

(** ** Sanitising and printing numbers *)

Lemma onlyDigits_app (a b : string) :
  onlyDigits (a ++ b) = (onlyDigits a ++ onlyDigits b)%string.
Proof.
  induction a as [| c a IH]; simpl; [ reflexivity | ].
  destruct (Js.isDigit c); simpl; now rewrite IH.
Qed.

Lemma onlyDigits_digits (s : string) :
  forall c, In c (list_ascii_of_string (onlyDigits s)) -> Js.isDigit c = true.
Proof.
  induction s as [| a s IH]; simpl; intros c Hc; [ contradiction | ].
  destruct (Js.isDigit a) eqn:Ha; [ | now apply IH ].
  simpl in Hc. destruct Hc as [<- | Hc]; [ assumption | now apply IH ].
Qed.

Lemma onlyDigits_fixed (s : string) :
  (forall c, In c (list_ascii_of_string s) -> Js.isDigit c = true) ->
  onlyDigits s = s.
Proof.
  induction s as [| a s IH]; simpl; intros H; [ reflexivity | ].
  rewrite (H a) by now left. f_equal. apply IH.
  intros c Hc. apply H. now right.
Qed.

Ltac eval_digit :=
  match goal with
  | |- context [Js.digitVal ?c] =>
      let v := eval vm_compute in (Js.digitVal c) in
      change (Js.digitVal c) with v
  end.

Lemma NumberFrom_uint_acc (d : Decimal.uint) (acc : positive) :
  Js.NumberFrom (N.pos acc) (DecimalString.NilEmpty.string_of_uint d)
    = N.pos (Pos.of_uint_acc d acc).
Proof.
  revert acc.
  induction d as [| d IH | d IH | d IH | d IH | d IH | d IH | d IH | d IH
                 | d IH | d IH ]; intros acc;
    [ reflexivity | .. ];
    cbn [DecimalString.NilEmpty.string_of_uint Js.NumberFrom Pos.of_uint_acc];
    rewrite <- IH; f_equal; eval_digit; lia.
Qed.

Lemma NumberFrom_uint (d : Decimal.uint) :
  Js.NumberFrom 0 (DecimalString.NilZero.string_of_uint d) = N.of_uint d.
Proof.
  assert (H : forall d,
    Js.NumberFrom 0 (DecimalString.NilEmpty.string_of_uint d) = N.of_uint d).
  { clear d.
    induction d as [| d IH | d IH | d IH | d IH | d IH | d IH | d IH | d IH
                   | d IH | d IH ];
      [ reflexivity | exact IH | .. ];
      cbn [DecimalString.NilEmpty.string_of_uint Js.NumberFrom];
      unfold N.of_uint; cbn [Pos.of_uint];
      rewrite <- NumberFrom_uint_acc; f_equal; eval_digit; lia. }
  destruct d; try apply H. reflexivity.
Qed.

Lemma uint_digits (d : Decimal.uint) :
  onlyDigits (DecimalString.NilZero.string_of_uint d)
    = DecimalString.NilZero.string_of_uint d.
Proof.
  assert (H : forall d,
    onlyDigits (DecimalString.NilEmpty.string_of_uint d)
      = DecimalString.NilEmpty.string_of_uint d).
  { clear d. induction d; simpl; try reflexivity;
      rewrite IHd; reflexivity. }
  destruct d; try apply H. reflexivity.
Qed.

Lemma toString_digits (n : N) : onlyDigits (Js.toString n) = Js.toString n.
Proof. apply uint_digits. Qed.

Lemma Number_toString (n : N) : Js.NumberOr0 (Js.toString n) = n.
Proof.
  unfold Js.NumberOr0, Js.toString. rewrite NumberFrom_uint.
  apply DecimalN.Unsigned.of_to.
Qed.

(** X1. [onlyDigits] returns only digits and is idempotent: sanitising an
    already sanitised field changes nothing. *)
Theorem onlyDigits_sanitises (s : string) :
  (forall c, In c (list_ascii_of_string (onlyDigits s)) ->
             Js.isDigit c = true) /\
  onlyDigits (onlyDigits s) = onlyDigits s /\
  (String.length (onlyDigits s) <= String.length s)%nat.
Proof.
  split; [ apply onlyDigits_digits | ].
  split; [ apply onlyDigits_fixed, onlyDigits_digits | ].
  induction s as [| a s IH]; simpl; [ lia | ].
  destruct (Js.isDigit a); simpl; lia.
Qed.

Lemma onlyDigits_nondigits (j : string) :
  (forall c, In c (list_ascii_of_string j) -> Js.isDigit c = false) ->
  onlyDigits j = ""%string.
Proof.
  induction j as [| c j IH]; simpl; intros H; [ reflexivity | ].
  rewrite (H c) by now left. apply IH. intros c' Hc'. apply H. now right.
Qed.

(** X2. The principal read back after typing is the number typed: when the
    decimal spelling of a number in the safe integer range is typed with
    other characters (separators, a currency prefix) inserted at some
    place, the field stores that spelling alone and the principal is that
    number. *)
Theorem onChangeModal_reads_digits
    (st : State) (n : N) (a j b : string) :
  (n <= Js.MAX_SAFE_INTEGER)%N ->
  Js.toString n = (a ++ b)%string ->
  (forall c, In c (list_ascii_of_string j) -> Js.isDigit c = false) ->
  modalStr (onChangeModal (a ++ j ++ b) st) = Js.toString n /\
  modal (onChangeModal (a ++ j ++ b) st) = n.
Proof.
  intros _ Hn Hj.
  assert (E : onlyDigits (a ++ j ++ b) = Js.toString n).
  { rewrite !onlyDigits_app, (onlyDigits_nondigits j Hj). simpl.
    rewrite <- onlyDigits_app, <- Hn. apply toString_digits. }
  unfold modal, onChangeModal, setModalStr; simpl. rewrite E.
  split; [ reflexivity | ].
  rewrite toString_digits. apply Number_toString.
Qed.

Lemma onChangeModal_reads_digits_witness :
  (1500000 <= Js.MAX_SAFE_INTEGER)%N /\
  Js.toString 1500000 = ("1" ++ "500000")%string /\
  modalStr (onChangeModal ("1" ++ "." ++ "500000") stExample)
    = "1500000"%string /\
  modal (onChangeModal ("1" ++ "." ++ "500000") stExample) = 1500000%N.
Proof.
  assert (H0 : (1500000 <= Js.MAX_SAFE_INTEGER)%N)
    by (vm_compute; intros C; discriminate C).
  assert (H1 : Js.toString 1500000 = ("1" ++ "500000")%string)
    by reflexivity.
  assert (H2 : forall c, In c (list_ascii_of_string ".") ->
                         Js.isDigit c = false).
  { intros c [<- | []]. reflexivity. }
  split; [ exact H0 | ].
  split; [ exact H1 | ].
  exact (onChangeModal_reads_digits stExample 1500000 "1" "." "500000"
           H0 H1 H2).
Defined.

(** X3. Printing a safe integer and reading it back through the sanitiser
    gives the same number, and the printed text passes the sanitiser
    unchanged. *)
Theorem toString_roundtrip (n : N) :
  (n <= Js.MAX_SAFE_INTEGER)%N ->
  onlyDigits (Js.toString n) = Js.toString n /\
  Js.NumberOr0 (onlyDigits (Js.toString n)) = n.
Proof.
  intros _. split; [ apply toString_digits | ].
  rewrite toString_digits. apply Number_toString.
Qed.

Lemma toString_roundtrip_witness :
  (1500000 <= Js.MAX_SAFE_INTEGER)%N /\
  Js.toString 1500000 = "1500000"%string /\
  Js.NumberOr0 (onlyDigits (Js.toString 1500000)) = 1500000%N.
Proof.
  assert (H : (1500000 <= Js.MAX_SAFE_INTEGER)%N)
    by (intro C; discriminate C).
  split; [ exact H | ].
  split; [ reflexivity | ].
  exact (proj2 (toString_roundtrip 1500000 H)).
Defined.

Lemma modal_setModalStr_toString (n : N) (st : State) :
  modal (setModalStr (Js.toString n) st) = n.
Proof.
  unfold modal, setModalStr; simpl.
  rewrite toString_digits. apply Number_toString.
Qed.

(** X4. The buttons "+ 1 jt" and "+ 5 jt" add exactly their amount to the
    principal, within the safe integer range, and touch no other input and
    no stored result. *)
Theorem onClickPlus_adds (k : N) (st : State) :
  (modal st + k <= Js.MAX_SAFE_INTEGER)%N ->
  modal (onClickPlus k st) = (modal st + k)%N /\
  months (onClickPlus k st) = months st /\
  investors (onClickPlus k st) = investors st /\
  result (onClickPlus k st) = result st /\
  impact (onClickPlus k st) = impact st.
Proof.
  intros _. split; [ apply modal_setModalStr_toString | ].
  repeat split.
Qed.

Lemma onClickPlus_adds_witness :
  (modal stExample + 5000000 <= Js.MAX_SAFE_INTEGER)%N /\
  modal (onClickPlus 5000000 stExample) = 6000000%N.
Proof.
  assert (H : (modal stExample + 5000000 <= Js.MAX_SAFE_INTEGER)%N)
    by (intro C; discriminate C).
  split; [ exact H | ].
  exact (proj1 (onClickPlus_adds 5000000 stExample H)).
Defined.

(** X5. The button "+ 500 rb" does not add: a non-zero principal is left
    as it is, and only an empty or zero principal becomes 500000. *)
Theorem onClickPlus500rb_behaviour (st : State) :
  (modal st <= Js.MAX_SAFE_INTEGER)%N ->
  (modal st <> 0%N -> modal (onClickPlus500rb st) = modal st) /\
  (modal st = 0%N -> modal (onClickPlus500rb st) = 500000%N).
Proof.
  intros _. unfold onClickPlus500rb, Js.falsy. split; intros H.
  - apply N.eqb_neq in H. rewrite H. apply modal_setModalStr_toString.
  - rewrite H. simpl N.eqb. cbv iota. apply modal_setModalStr_toString.
Qed.

Lemma onClickPlus500rb_behaviour_witness :
  (modal stExample <= Js.MAX_SAFE_INTEGER)%N /\
  modal (onClickPlus500rb stExample) = 1000000%N /\
  modal (onClickPlus500rb stNoModal) = 500000%N.
Proof.
  assert (H : (modal stExample <= Js.MAX_SAFE_INTEGER)%N)
    by (intro C; discriminate C).
  assert (H' : (modal stNoModal <= Js.MAX_SAFE_INTEGER)%N)
    by (intro C; discriminate C).
  split; [ exact H | ].
  split.
  - apply (proj1 (onClickPlus500rb_behaviour stExample H)).
    intro C; discriminate C.
  - apply (proj2 (onClickPlus500rb_behaviour stNoModal H')).
    reflexivity.
Defined.

Lemma clamp_0_600 (n : N) : clamp n 0 600 = N.min 600 n.
Proof. unfold clamp. lia. Qed.

(** X6. Whatever is typed into the duration field, the duration read back
    is the typed number capped at 600 months. *)
Theorem onChangeMonths_capped (v : string) (st : State) :
  months (onChangeMonths v st) = N.min 600 (Js.NumberOr0 (onlyDigits v)) /\
  (months (onChangeMonths v st) <= 600)%N /\
  modal (onChangeMonths v st) = modal st.
Proof.
  assert (E : months (onChangeMonths v st)
              = N.min 600 (Js.NumberOr0 (onlyDigits v))).
  { unfold months, onChangeMonths, setMonthsStr; simpl.
    rewrite !toString_digits, Number_toString. apply clamp_0_600. }
  split; [ exact E | ].
  split; [ rewrite E; lia | reflexivity ].
Qed.

(** X7. [clamp] on natural numbers: with [min <= max] the value lands in
    [[min, max]], a value already in range is returned unchanged, and
    clamping twice is clamping once; with [max < min] the result is [min]. *)
Theorem clamp_range (v lo hi : N) :
  ((lo <= hi)%N ->
     (lo <= clamp v lo hi <= hi)%N /\
     ((lo <= v <= hi)%N -> clamp v lo hi = v) /\
     clamp (clamp v lo hi) lo hi = clamp v lo hi) /\
  ((hi < lo)%N -> clamp v lo hi = lo).
Proof.
  unfold clamp. split.
  - intros H.
    split; [ lia | ].
    split; [ intros Hv; lia | lia ].
  - intros H. lia.
Qed.

Lemma clamp_range_witness :
  ((0 <= 600)%N /\ clamp 9999 0 600 = 600%N /\ clamp 24 0 600 = 24%N) /\
  ((3 < 7)%N /\ clamp 5 7 3 = 7%N).
Proof.
  assert (H : (0 <= 600)%N) by (intro C; discriminate C).
  assert (H' : (3 < 7)%N) by reflexivity.
  split.
  - split; [ exact H | ].
    destruct (proj1 (clamp_range 24 0 600) H) as (_ & Hin & _).
    split; [ reflexivity | ].
    apply Hin. split; intro C; discriminate C.
  - split; [ exact H' | ].
    exact (proj2 (clamp_range 5 7 3) H').
Defined.

(** ** Scenario ordering, gains and the inflation badge *)

Lemma pow_lt_strict (a b : R) (n : nat) :
  0 < a -> a < b -> (1 <= n)%nat -> a ^ n < b ^ n.
Proof.
  intros Ha Hab Hn. destruct n as [| k]; [ lia | clear Hn ].
  induction k as [| k IH].
  - simpl. lra.
  - change (a ^ S (S k)) with (a * a ^ S k).
    change (b ^ S (S k)) with (b * b ^ S k).
    assert (Hpa : 0 < a ^ S k) by (apply pow_lt; lra).
    nra.
Qed.

Lemma grow_rate_increasing (m d : N) (r1 r2 : R) :
  (0 < m)%N -> (1 <= d)%N -> -1 < r1 -> r1 < r2 ->
  grow m d r1 < grow m d r2.
Proof.
  intros Hm Hd H1 H12. unfold grow, Math.pow_int.
  apply Rmult_lt_compat_l; [ now apply N2R_pos | ].
  apply pow_lt_strict; try lra. lia.
Qed.

(** The base table keeps the moderate rate below the optimistic one, and
    no toggle combination lifts the pessimistic rate to the moderate one. *)
Lemma base_gaps (a : Adj) (type : string) (b : Rates) :
  get base type = Some b ->
  mod_ b < opt b /\ pes b - mod_ b < whatIfDelta a type * 0.5 /\
  0.0026 <= mod_ b + whatIfDelta a type.
Proof.
  intros H. pose proof (get_base_instruments _ _ H) as Hin.
  instrument_cases Hin; injection H as <-; toggle_cases a;
    eval_tables; lra.
Qed.

Lemma adjustedRatesFor_inv (a : Adj) (type : string) (r : Rates) :
  adjustedRatesFor a type = Some r ->
  exists b,
    get base type = Some b /\
    r = {| opt := opt b + whatIfDelta a type;
           mod_ := mod_ b + whatIfDelta a type;
           pes := pes b + whatIfDelta a type * 0.5 |}.
Proof.
  unfold adjustedRatesFor.
  destruct (get base type) as [b |]; [ | discriminate ].
  intros H. injection H as <-. now exists b.
Qed.

(** X8. For every instrument and toggle combination the adjusted rates are
    strictly ordered, pessimistic < moderate < optimistic, and so are the
    three projected values of a positive principal in the safe integer
    range over 1 to 600 months. *)
Theorem scenarios_strictly_ordered
    (a : Adj) (type : string) (r : Rates) (m d : N) :
  adjustedRatesFor a type = Some r ->
  (0 < m)%N -> (m <= Js.MAX_SAFE_INTEGER)%N -> (1 <= d <= 600)%N ->
  pes r < mod_ r < opt r /\
  pesV (scenarioResult r m d) < modV (scenarioResult r m d)
    < optV (scenarioResult r m d).
Proof.
  intros Hr Hm _ [Hd _].
  destruct (adjusted_rates_above_minus_one a type r Hr) as (_ & Hmod & Hpes).
  destruct (adjustedRatesFor_inv a type r Hr) as (b & Hb & ->).
  destruct (base_gaps a type b Hb) as (Hgap1 & Hgap2 & _).
  simpl in Hmod, Hpes.
  assert (Hord : pes b + whatIfDelta a type * 0.5 < mod_ b + whatIfDelta a type
                 /\ mod_ b + whatIfDelta a type < opt b + whatIfDelta a type)
    by lra.
  split; [ exact Hord | ].
  simpl. split; apply grow_rate_increasing; try assumption; lra.
Qed.

Lemma scenarios_strictly_ordered_witness :
  adjustedRatesFor (adj stExample) (investment stExample) = Some sahamRates /\
  (0 < 1000000)%N /\ (1000000 <= Js.MAX_SAFE_INTEGER)%N /\
  (1 <= 12 <= 600)%N /\
  pesV (scenarioResult sahamRates 1000000 12)
    < modV (scenarioResult sahamRates 1000000 12)
    < optV (scenarioResult sahamRates 1000000 12).
Proof.
  assert (H0 : (0 < 1000000)%N) by reflexivity.
  assert (Hb : (1000000 <= Js.MAX_SAFE_INTEGER)%N)
    by (vm_compute; intros C; discriminate C).
  assert (H1 : (1 <= 12 <= 600)%N) by lia.
  split; [ exact stExample_rates | ].
  split; [ exact H0 | ].
  split; [ exact Hb | ].
  split; [ exact H1 | ].
  exact (proj2 (scenarios_strictly_ordered _ _ _ 1000000 12
                  stExample_rates H0 Hb H1)).
Defined.

(** No toggle combination brings the pessimistic rate of an instrument to
    zero: it stays at least 0.00005 away from it. *)
Lemma pes_rate_away_from_zero (a : Adj) (type : string) (b : Rates) :
  get base type = Some b ->
  pes b + whatIfDelta a type * 0.5 <= -0.00005 \/
  0.00005 <= pes b + whatIfDelta a type * 0.5.
Proof.
  intros H. pose proof (get_base_instruments _ _ H) as Hin.
  instrument_cases Hin; injection H as <-; toggle_cases a;
    eval_tables; lra.
Qed.

Lemma grow_above (m d : N) (rate : R) :
  (0 < m)%N -> (1 <= d)%N -> 0 < rate -> N2R m < grow m d rate.
Proof.
  intros Hm Hd Hr. pose proof (N2R_pos m Hm) as Hmp.
  assert (Hn : (0 < N.to_nat d)%nat) by lia.
  assert (Hup : 1 < (1 + rate) ^ N.to_nat d)
    by (apply Rlt_pow_R1; [ lra | assumption ]).
  unfold grow, Math.pow_int. nra.
Qed.

Lemma grow_below (m d : N) (rate : R) :
  (0 < m)%N -> (1 <= d)%N -> -1 < rate -> rate < 0 ->
  0 < grow m d rate < N2R m.
Proof.
  intros Hm Hd Hr1 Hr. pose proof (N2R_pos m Hm) as Hmp.
  assert (Hn : (0 < N.to_nat d)%nat) by lia.
  assert (Hpos : 0 < (1 + rate) ^ N.to_nat d) by (apply pow_lt; lra).
  assert (Hdown : (1 + rate) ^ N.to_nat d < 1)
    by (apply pow_lt_1_compat; [ lra | assumption ]).
  unfold grow, Math.pow_int. split; nra.
Qed.

(** X9. For every instrument and toggle combination, a positive principal
    in the safe integer range and 1 to 600 months: the moderate and the
    optimistic projection end above the principal; the pessimistic rate is
    never zero, and the pessimistic projection ends above the principal
    when that rate is positive and below it, but above zero, when the rate
    is negative. *)
Theorem grow_sign_of_rate
    (a : Adj) (type : string) (r : Rates) (m d : N) :
  adjustedRatesFor a type = Some r ->
  (0 < m)%N -> (m <= Js.MAX_SAFE_INTEGER)%N -> (1 <= d <= 600)%N ->
  N2R m < modV (scenarioResult r m d) /\
  N2R m < optV (scenarioResult r m d) /\
  (pes r < 0 \/ 0 < pes r) /\
  (0 < pes r -> N2R m < pesV (scenarioResult r m d)) /\
  (pes r < 0 -> 0 < pesV (scenarioResult r m d) < N2R m).
Proof.
  intros Hr Hm _ [Hd _].
  destruct (adjusted_rates_above_minus_one a type r Hr) as (_ & _ & Hpes).
  destruct (adjustedRatesFor_inv a type r Hr) as (b & Hb & ->).
  destruct (base_gaps a type b Hb) as (Hg1 & _ & Hg3).
  pose proof (pes_rate_away_from_zero a type b Hb) as Hp0.
  simpl in Hpes. simpl.
  split; [ apply grow_above; try assumption; lra | ].
  split; [ apply grow_above; try assumption; lra | ].
  split; [ destruct Hp0; [ left | right ]; lra | ].
  split; [ intros H; now apply grow_above | ].
  intros H. now apply grow_below.
Qed.

Lemma grow_sign_of_rate_witness :
  adjustedRatesFor (adj stExample) (investment stExample) = Some sahamRates /\
  (0 < 1000000)%N /\ (1000000 <= Js.MAX_SAFE_INTEGER)%N /\
  (1 <= 12 <= 600)%N /\
  N2R 1000000 < modV (scenarioResult sahamRates 1000000 12) /\
  0 < pesV (scenarioResult sahamRates 1000000 12) < N2R 1000000.
Proof.
  assert (H0 : (0 < 1000000)%N) by reflexivity.
  assert (Hb : (1000000 <= Js.MAX_SAFE_INTEGER)%N)
    by (vm_compute; intros C; discriminate C).
  assert (H1 : (1 <= 12 <= 600)%N) by lia.
  destruct (grow_sign_of_rate _ _ _ 1000000 12 stExample_rates H0 Hb H1)
    as (Hmod & _ & _ & _ & Hneg).
  split; [ exact stExample_rates | ].
  split; [ exact H0 | ].
  split; [ exact Hb | ].
  split; [ exact H1 | ].
  split; [ exact Hmod | ].
  apply Hneg. simpl. lra.
Defined.

(** X10. The annualised moderate rate of every instrument under every
    toggle combination exceeds the inflation figure it is compared with
    (2.65), so the "below inflation" badge is never the one shown. *)
Theorem annualModerate_beats_inflation
    (a : Adj) (type : string) (r : Rates) (m d : N) :
  adjustedRatesFor a type = Some r ->
  macro.inflasiTahunan < annualModerate (scenarioResult r m d).
Proof.
  intros Hr.
  destruct (adjustedRatesFor_inv a type r Hr) as (b & Hb & ->).
  destruct (base_gaps a type b Hb) as (_ & _ & Hlow).
  simpl. unfold Math.pow_int, macro.inflasiTahunan.
  set (e := mod_ b + whatIfDelta a type) in *.
  assert (He : 0 < e) by lra.
  pose proof (poly 12 e He) as Hpoly.
  change (N.to_nat 12) with 12%nat.
  replace (INR 12) with 12 in Hpoly by (simpl; lra).
  lra.
Qed.

Lemma annualModerate_beats_inflation_witness :
  adjustedRatesFor (adj stExample) (investment stExample) = Some sahamRates /\
  macro.inflasiTahunan < annualModerate (scenarioResult sahamRates 1000000 12).
Proof.
  split; [ exact stExample_rates | ].
  exact (annualModerate_beats_inflation _ _ _ 1000000 12 stExample_rates).
Defined.

Lemma calcAll_modal (st : State) : modal (calcAll st) = modal st.
Proof.
  unfold calcAll.
  destruct (adjustedRatesFor (adj st) (investment st)); [ | reflexivity ].
  destruct (Js.falsy (modal st) || Js.falsy (months st))%bool; reflexivity.
Qed.

Lemma pctGain_grow (st : State) (d : N) (rate : R) :
  (0 < modal st)%N ->
  pctGain st (grow (modal st) d rate)
    = ((1 + rate) ^ N.to_nat d - 1) * 100.
Proof.
  intros Hm. pose proof (N2R_pos _ Hm) as Hp.
  unfold pctGain, Inflasi.modalValue.
  destruct (Rlt_dec 0 (N2R (modal st))) as [_ | Hn]; [ | contradiction ].
  unfold grow, Math.pow_int. field. lra.
Qed.

(** X11. Right after a calculation, for a principal in the safe integer
    range and 1 to 600 months, each percentage gain shown is
    [((value - modal) / modal) * 100] of the stored scenario value; the
    three gains are strictly ordered, the moderate gain is positive, and
    the pessimistic gain has the sign of the pessimistic rate and stays
    above -100. *)
Theorem pct_gains_after_calcAll (st : State) (r : Rates) :
  adjustedRatesFor (adj st) (investment st) = Some r ->
  (0 < modal st)%N -> (modal st <= Js.MAX_SAFE_INTEGER)%N ->
  (1 <= months st <= 600)%N ->
  let res := scenarioResult r (modal st) (months st) in
  pctOptimis (calcAll st)
    = ((optV res - N2R (modal st)) / N2R (modal st)) * 100 /\
  pctModerat (calcAll st)
    = ((modV res - N2R (modal st)) / N2R (modal st)) * 100 /\
  pctPesimis (calcAll st)
    = ((pesV res - N2R (modal st)) / N2R (modal st)) * 100 /\
  pctPesimis (calcAll st) < pctModerat (calcAll st) < pctOptimis (calcAll st) /\
  0 < pctModerat (calcAll st) /\
  (0 < pes r -> 0 < pctPesimis (calcAll st)) /\
  (pes r < 0 -> -100 < pctPesimis (calcAll st) < 0).
Proof.
  intros Hr Hm _ [Hd _] res.
  pose proof (N2R_pos _ Hm) as Hmp.
  assert (Hg : forall val,
    pctGain (calcAll st) val
      = ((val - N2R (modal st)) / N2R (modal st)) * 100).
  { intros val. unfold pctGain, Inflasi.modalValue. rewrite calcAll_modal.
    destruct (Rlt_dec 0 (N2R (modal st))) as [_ | Hn];
      [ reflexivity | contradiction ]. }
  assert (Eo : pctOptimis (calcAll st)
               = ((optV res - N2R (modal st)) / N2R (modal st)) * 100).
  { unfold pctOptimis, valOpt. rewrite Hg.
    now rewrite (calcAll_result st r). }
  assert (Em : pctModerat (calcAll st)
               = ((modV res - N2R (modal st)) / N2R (modal st)) * 100).
  { unfold pctModerat, valMod. rewrite Hg.
    now rewrite (calcAll_result st r). }
  assert (Ep : pctPesimis (calcAll st)
               = ((pesV res - N2R (modal st)) / N2R (modal st)) * 100).
  { unfold pctPesimis, valPes. rewrite Hg.
    now rewrite (calcAll_result st r). }
  split; [ exact Eo | ].
  split; [ exact Em | ].
  split; [ exact Ep | ].
  rewrite Eo, Em, Ep.
  destruct (adjusted_rates_above_minus_one _ _ r Hr) as (_ & Hmod & Hpes).
  destruct (adjustedRatesFor_inv _ _ r Hr) as (b & Hb & Er).
  destruct (base_gaps (adj st) (investment st) b Hb) as (Hg1 & Hg2 & Hg3).
  assert (Hord : pes r < mod_ r /\ mod_ r < opt r /\ 0 < mod_ r)
    by (rewrite Er; simpl; lra).
  destruct Hord as (Hpm & Hmo & Hm0).
  assert (H1 : pesV res < modV res)
    by (apply grow_rate_increasing; assumption).
  assert (H2 : modV res < optV res)
    by (apply grow_rate_increasing; try assumption; lra).
  assert (H3 : N2R (modal st) < modV res)
    by (apply grow_above; assumption).
  assert (Hdiv : forall u v, u < v ->
    (u - N2R (modal st)) / N2R (modal st) * 100
      < (v - N2R (modal st)) / N2R (modal st) * 100).
  { intros u v Huv. apply Rmult_lt_compat_r; [ lra | ].
    unfold Rdiv. apply Rmult_lt_compat_r;
      [ now apply Rinv_0_lt_compat | lra ]. }
  assert (Hz : (N2R (modal st) - N2R (modal st)) / N2R (modal st) * 100 = 0)
    by (field; lra).
  assert (Hlow : (0 - N2R (modal st)) / N2R (modal st) * 100 = -100)
    by (field; lra).
  split; [ split; now apply Hdiv | ].
  split; [ rewrite <- Hz; now apply Hdiv | ].
  split.
  - intros Hp. rewrite <- Hz. apply Hdiv. now apply grow_above.
  - intros Hp.
    destruct (grow_below (modal st) (months st) (pes r) Hm Hd Hpes Hp)
      as (Hp0 & Hp1).
    split.
    + rewrite <- Hlow. now apply Hdiv.
    + rewrite <- Hz. now apply Hdiv.
Qed.

Lemma pct_gains_after_calcAll_witness :
  adjustedRatesFor (adj stExample) (investment stExample) = Some sahamRates /\
  (0 < modal stExample)%N /\
  (modal stExample <= Js.MAX_SAFE_INTEGER)%N /\
  (1 <= months stExample <= 600)%N /\
  pctPesimis (calcAll stExample) < pctModerat (calcAll stExample)
    < pctOptimis (calcAll stExample) /\
  0 < pctModerat (calcAll stExample).
Proof.
  assert (H0 : (0 < modal stExample)%N) by reflexivity.
  assert (Hb : (modal stExample <= Js.MAX_SAFE_INTEGER)%N)
    by (vm_compute; intros C; discriminate C).
  assert (H1 : (1 <= months stExample <= 600)%N)
    by (split; intros C; discriminate C).
  split; [ exact stExample_rates | ].
  split; [ exact H0 | ].
  split; [ exact Hb | ].
  split; [ exact H1 | ].
  destruct (pct_gains_after_calcAll stExample sahamRates
              stExample_rates H0 Hb H1) as (_ & _ & _ & Hord & Hpos & _).
  split; [ exact Hord | exact Hpos ].
Defined.

(** X12. For a GDP of at least 1 (trillion rupiah), a principal and an
    investor count in the safe integer range and productive shares between
    0 and 1: a larger share never gives a larger additional inflation, the
    addition is never negative and is zero at a share of 1, and the
    simulated inflation is never below the baseline. *)
Theorem tambahanInflasi_productive_share (st : State) (p1 p2 : R) :
  1 <= pdb st ->
  (modal st <= Js.MAX_SAFE_INTEGER)%N ->
  (investors st <= Js.MAX_SAFE_INTEGER)%N ->
  0 <= p1 -> p1 <= p2 -> p2 <= 1 ->
  Inflasi.tambahanInflasi (setPorsiProduktif p2 st)
    <= Inflasi.tambahanInflasi (setPorsiProduktif p1 st) /\
  0 <= Inflasi.tambahanInflasi (setPorsiProduktif p2 st) /\
  Inflasi.tambahanInflasi (setPorsiProduktif 1 st) = 0 /\
  Inflasi.inflasiAwal <= Inflasi.inflasiSimulasi (setPorsiProduktif p1 st).
Proof.
  intros Hpdb _ _ Hp0 Hp Hp1.
  pose proof (N2R_nonneg (modal st)) as Hmp.
  pose proof (N2R_nonneg (investors st)) as Hip.
  assert (Hratio : forall s, pdb s = pdb st -> modal s = modal st ->
                             investors s = investors st ->
                             Inflasi.ratioDanaPdb s = Inflasi.ratioDanaPdb st).
  { intros s E1 E2 E3.
    unfold Inflasi.ratioDanaPdb, Inflasi.totalDanaTriliun, Inflasi.totalDana,
      Inflasi.modalValue, Inflasi.investorCount.
    now rewrite E1, E2, E3. }
  assert (Hr : 0 <= Inflasi.ratioDanaPdb st).
  { unfold Inflasi.ratioDanaPdb.
    destruct (Rlt_dec 0 (pdb st)) as [Hpos | Hn]; [ | lra ].
    unfold Inflasi.totalDanaTriliun, Inflasi.totalDana,
      Inflasi.modalValue, Inflasi.investorCount.
    apply Rmult_le_pos; [ | left; now apply Rinv_0_lt_compat ].
    apply Rmult_le_pos; [ | left; apply Rinv_0_lt_compat; lra ].
    now apply Rmult_le_pos. }
  unfold Inflasi.inflasiSimulasi, Inflasi.tambahanInflasi, Inflasi.k.
  rewrite (Hratio (setPorsiProduktif p2 st)) by reflexivity.
  rewrite (Hratio (setPorsiProduktif p1 st)) by reflexivity.
  rewrite (Hratio (setPorsiProduktif 1 st)) by reflexivity.
  simpl porsiProduktif.
  set (q := Inflasi.ratioDanaPdb st) in *.
  repeat split; nra.
Qed.

Lemma tambahanInflasi_productive_share_witness :
  1 <= pdb stExample /\
  (modal stExample <= Js.MAX_SAFE_INTEGER)%N /\
  (investors stExample <= Js.MAX_SAFE_INTEGER)%N /\
  0 <= 0.5 /\ 0.5 <= 0.9 /\ 0.9 <= 1 /\
  Inflasi.tambahanInflasi (setPorsiProduktif 0.9 stExample)
    <= Inflasi.tambahanInflasi (setPorsiProduktif 0.5 stExample).
Proof.
  assert (H0 : 1 <= pdb stExample) by (simpl; lra).
  assert (H1 : (modal stExample <= Js.MAX_SAFE_INTEGER)%N)
    by (vm_compute; intros C; discriminate C).
  assert (H2 : (investors stExample <= Js.MAX_SAFE_INTEGER)%N)
    by (vm_compute; intros C; discriminate C).
  assert (H3 : 0 <= 0.5) by lra.
  assert (H4 : 0.5 <= 0.9) by lra.
  assert (H5 : 0.9 <= 1) by lra.
  split; [ exact H0 | ].
  split; [ exact H1 | ].
  split; [ exact H2 | ].
  split; [ exact H3 | ].
  split; [ exact H4 | ].
  split; [ exact H5 | ].
  exact (proj1 (tambahanInflasi_productive_share stExample 0.5 0.9
                  H0 H1 H2 H3 H4 H5)).
Defined.

(** X13. The correlation curve ends at the headline figure and never
    exceeds it: for a positive principal and investor count in the safe
    integer range, the last point is the full investor count with exactly
    the [impactPct] that [calcAll] stores, and every point lies at a
    positive investor count up to the full one, with a positive impact up
    to the headline. *)
Theorem corrPoints_line (m i : N) :
  (0 < m)%N -> (0 < i)%N ->
  (m <= Js.MAX_SAFE_INTEGER)%N -> (i <= Js.MAX_SAFE_INTEGER)%N ->
  (exists p, nth_error (corrPoints m i) 9 = Some p /\
             x p = N2R i /\ y p = impactPct (nationalImpact m i)) /\
  (forall p, In p (corrPoints m i) ->
     0 < x p <= N2R i /\ 0 < y p <= impactPct (nationalImpact m i)).
Proof.
  intros Hm Hi _ _.
  pose proof trxHarianBEI_pos as Ht.
  pose proof (N2R_pos m Hm) as Hmp. pose proof (N2R_pos i Hi) as Hip.
  assert (Hj : forall j : nat, (j < 10)%nat ->
    nth_error (corrPoints m i) j = Some (corrPoint m i 10 (S j))).
  { intros j Hlt. rewrite (corrPoints_map m i Hm Hi).
    rewrite nth_error_map, nth_error_seq.
    destruct (Nat.ltb_spec j 10) as [_ | Hge]; [ reflexivity | lia ]. }
  assert (Hx : forall k : nat, x (corrPoint m i 10 k) = N2R i * (INR k / 10)).
  { intros k. unfold corrPoint, x.
    replace (INR 10) with 10 by (simpl; lra). reflexivity. }
  assert (Hy : forall k : nat, (1 <= k)%nat ->
    y (corrPoint m i 10 k)
      = 8 * (x (corrPoint m i 10 k) * N2R m / macro.trxHarianBEI)).
  { intros k Hk. rewrite corrPoint_y_of_x.
    unfold Math.max. apply Rmax_right.
    left. apply (corrYPct_pos m i Hm Hi k Hk). }
  assert (Himp : impactPct (nationalImpact m i)
                 = 8 * (N2R i * N2R m / macro.trxHarianBEI))
    by reflexivity.
  split.
  - exists (corrPoint m i 10 10).
    split; [ apply Hj; lia | ].
    assert (E : x (corrPoint m i 10 10) = N2R i).
    { rewrite Hx. replace (INR 10) with 10 by (simpl; lra). field. }
    split; [ exact E | ].
    rewrite Hy by lia. rewrite E. exact (eq_sym Himp).
  - intros p Hp.
    destruct (corrPoints_in m i Hm Hi p Hp) as (k & [Hk1 Hk10] & ->).
    assert (H1 : 1 <= INR k) by (change 1 with (INR 1); now apply le_INR).
    assert (H10 : INR k <= 10).
    { replace 10 with (INR 10) by (simpl; lra). now apply le_INR. }
    assert (Hxr : 0 < x (corrPoint m i 10 k) <= N2R i)
      by (rewrite Hx; split; nra).
    split; [ exact Hxr | ].
    rewrite Hy by assumption. rewrite Himp.
    split.
    + apply Rmult_lt_0_compat; [ lra | ].
      apply Rdiv_lt_0_compat; [ | assumption ].
      apply Rmult_lt_0_compat; [ apply Hxr | assumption ].
    + apply impact_of_x_monotone. apply Hxr.
Qed.

Lemma corrPoints_line_witness :
  (0 < 1000000)%N /\ (0 < 18000000)%N /\
  (1000000 <= Js.MAX_SAFE_INTEGER)%N /\
  (18000000 <= Js.MAX_SAFE_INTEGER)%N /\
  exists p, nth_error (corrPoints 1000000 18000000) 9 = Some p /\
            x p = N2R 18000000 /\
            y p = impactPct (nationalImpact 1000000 18000000).
Proof.
  assert (H0 : (0 < 1000000)%N) by reflexivity.
  assert (H1 : (0 < 18000000)%N) by reflexivity.
  assert (H2 : (1000000 <= Js.MAX_SAFE_INTEGER)%N)
    by (vm_compute; intros C; discriminate C).
  assert (H3 : (18000000 <= Js.MAX_SAFE_INTEGER)%N)
    by (vm_compute; intros C; discriminate C).
  split; [ exact H0 | ].
  split; [ exact H1 | ].
  split; [ exact H2 | ].
  split; [ exact H3 | ].
  exact (proj1 (corrPoints_line 1000000 18000000 H0 H1 H2 H3)).
Defined.

(** ** The line chart *)

Lemma fold_Rmin_le (l : list R) (a : R) :
  fold_left Rmin l a <= a /\ forall b, In b l -> fold_left Rmin l a <= b.
Proof.
  revert a. induction l as [| c l IH]; intros a; simpl.
  - split; [ lra | contradiction ].
  - destruct (IH (Rmin a c)) as (H1 & H2).
    pose proof (Rmin_l a c) as Hl. pose proof (Rmin_r a c) as Hr.
    split; [ lra | ].
    intros b [<- | Hb]; [ lra | now apply H2 ].
Qed.

Lemma fold_Rmax_ge (l : list R) (a : R) :
  a <= fold_left Rmax l a /\ forall b, In b l -> b <= fold_left Rmax l a.
Proof.
  revert a. induction l as [| c l IH]; intros a; simpl.
  - split; [ lra | contradiction ].
  - destruct (IH (Rmax a c)) as (H1 & H2).
    pose proof (Rmax_l a c) as Hl. pose proof (Rmax_r a c) as Hr.
    split; [ lra | ].
    intros b [<- | Hb]; [ lra | now apply H2 ].
Qed.

Lemma fold_Rmin_in (l : list R) (a : R) : In (fold_left Rmin l a) (a :: l).
Proof.
  revert a. induction l as [| c l IH]; intros a; simpl.
  - now left.
  - destruct (IH (Rmin a c)) as [H | H].
    + unfold Rmin in H at 1. destruct (Rle_dec a c); [ left | right; left ];
        assumption.
    + right. now right.
Qed.

Lemma fold_Rmax_in (l : list R) (a : R) : In (fold_left Rmax l a) (a :: l).
Proof.
  revert a. induction l as [| c l IH]; intros a; simpl.
  - now left.
  - destruct (IH (Rmax a c)) as [H | H].
    + unfold Rmax in H at 1. destruct (Rle_dec a c); [ right; left | left ];
        assumption.
    + right. now right.
Qed.

Lemma minOf_le (xs : list R) (v : R) : In v xs -> LineChart.minOf xs <= v.
Proof.
  destruct xs as [| a l]; [ contradiction | ]. simpl.
  destruct (fold_Rmin_le l a) as (H1 & H2).
  intros [<- | Hv]; [ exact H1 | now apply H2 ].
Qed.

Lemma maxOf_ge (xs : list R) (v : R) : In v xs -> v <= LineChart.maxOf xs.
Proof.
  destruct xs as [| a l]; [ contradiction | ]. simpl.
  destruct (fold_Rmax_ge l a) as (H1 & H2).
  intros [<- | Hv]; [ exact H1 | now apply H2 ].
Qed.

Lemma minOf_unique (xs : list R) (v : R) :
  In v xs -> (forall b, In b xs -> v <= b) -> LineChart.minOf xs = v.
Proof.
  intros Hv Hlow. pose proof (minOf_le xs v Hv) as H1.
  destruct xs as [| a l]; [ contradiction | ].
  pose proof (Hlow _ (fold_Rmin_in l a)) as H2. simpl in *. lra.
Qed.

Lemma maxOf_unique (xs : list R) (v : R) :
  In v xs -> (forall b, In b xs -> b <= v) -> LineChart.maxOf xs = v.
Proof.
  intros Hv Hup. pose proof (maxOf_ge xs v Hv) as H1.
  destruct xs as [| a l]; [ contradiction | ].
  pose proof (Hup _ (fold_Rmax_in l a)) as H2. simpl in *. lra.
Qed.

(** A quotient of a part by the whole, with the zero whole replaced by 1. *)
Lemma ratio_unit (u v : R) :
  0 <= u <= v -> 0 <= u / LineChart.orOne v <= 1.
Proof.
  intros [H0 Huv]. unfold LineChart.orOne.
  destruct (Req_dec_T v 0) as [E | N].
  - assert (u = 0) by lra. subst u. unfold Rdiv. rewrite Rmult_0_l. lra.
  - assert (Hv : 0 < v) by lra.
    split.
    + apply Rmult_le_pos; [ lra | left; now apply Rinv_0_lt_compat ].
    + apply Rmult_le_reg_r with v; [ assumption | ].
      unfold Rdiv. rewrite Rmult_assoc, Rinv_l by lra. lra.
Qed.

Lemma sx_in_box (width : R) (points : list Point) (p : Point) :
  In p points -> 2 * LineChart.pad <= width ->
  LineChart.pad <= LineChart.sx width points (x p) <= width - LineChart.pad.
Proof.
  intros Hp Hw. unfold LineChart.sx. cbv zeta.
  assert (Hin : In (x p) (map x points)) by now apply in_map.
  pose proof (minOf_le _ _ Hin) as Hmin.
  pose proof (maxOf_ge _ _ Hin) as Hmax.
  set (lo := LineChart.minOf (map x points)) in *.
  set (hi := LineChart.maxOf (map x points)) in *.
  assert (Hr : 0 <= (x p - lo) / LineChart.orOne (hi - lo) <= 1)
    by (apply ratio_unit; lra).
  set (t := (x p - lo) / LineChart.orOne (hi - lo)) in *.
  nra.
Qed.

Lemma sy_in_box (height : R) (points : list Point) (p : Point) :
  In p points -> 2 * LineChart.pad <= height -> 0 <= y p ->
  LineChart.pad <= LineChart.sy height points (y p) <= height - LineChart.pad.
Proof.
  intros Hp Hh Hy. unfold LineChart.sy. cbv zeta.
  assert (Hin : In (y p) (map y points ++ [1]))
    by (apply in_or_app; left; now apply in_map).
  assert (H1 : In 1 (map y points ++ [1]))
    by (apply in_or_app; right; now left).
  pose proof (maxOf_ge _ _ Hin) as Hmax.
  pose proof (maxOf_ge _ _ H1) as Hone.
  set (hi := LineChart.maxOf (map y points ++ [1])) in *.
  assert (Hr : 0 <= (y p - 0) / LineChart.orOne (hi - 0) <= 1)
    by (apply ratio_unit; lra).
  set (t := (y p - 0) / LineChart.orOne (hi - 0)) in *.
  nra.
Qed.

(** X14. Every vertex the chart draws lies inside the plot area, between
    the padding on each side, provided the canvas is at least two paddings
    wide and high and no point has a negative [y]; without points the chart
    is the placeholder. *)
Theorem chart_vertices_in_box (width height : R) (points : list Point) :
  2 * LineChart.pad <= width -> 2 * LineChart.pad <= height ->
  (forall p, In p points -> 0 <= y p) ->
  (points = [] <-> LineChart.vertices width height points = None) /\
  (forall vs X Y,
     LineChart.vertices width height points = Some vs -> In (X, Y) vs ->
     LineChart.pad <= X <= width - LineChart.pad /\
     LineChart.pad <= Y <= height - LineChart.pad) /\
  (forall vs,
     LineChart.vertices width height points = Some vs ->
     length vs = length points).
Proof.
  intros Hw Hh Hy.
  split; [ | split ].
  - destruct points; simpl; split; intros H; try reflexivity;
      discriminate H.
  - intros vs X Y Hvs Hin.
    destruct points as [| p0 l] eqn:E; [ discriminate Hvs | ].
    rewrite <- E in *. unfold LineChart.vertices in Hvs. rewrite E in Hvs.
    rewrite <- E in Hvs. injection Hvs as <-.
    apply in_map_iff in Hin. destruct Hin as (p & Hp & Hin).
    injection Hp as <- <-.
    split; [ now apply sx_in_box | apply sy_in_box; auto ].
  - intros vs Hvs.
    destruct points as [| p0 l]; [ discriminate Hvs | ].
    unfold LineChart.vertices in Hvs. injection Hvs as <-.
    simpl. f_equal. apply length_map.
Qed.

Lemma chart_vertices_in_box_witness :
  2 * LineChart.pad <= 560 /\ 2 * LineChart.pad <= 180 /\
  (forall vs X Y,
     LineChart.vertices 560 180 [mkPoint 3 4; mkPoint 5 0] = Some vs ->
     In (X, Y) vs ->
     LineChart.pad <= X <= 560 - LineChart.pad /\
     LineChart.pad <= Y <= 180 - LineChart.pad).
Proof.
  assert (Hw : 2 * LineChart.pad <= 560) by (unfold LineChart.pad; lra).
  assert (Hh : 2 * LineChart.pad <= 180) by (unfold LineChart.pad; lra).
  assert (Hy : forall p, In p [mkPoint 3 4; mkPoint 5 0] -> 0 <= y p).
  { intros p [<- | [<- | []]]; simpl; lra. }
  split; [ exact Hw | ].
  split; [ exact Hh | ].
  exact (proj1 (proj2 (chart_vertices_in_box 560 180 _ Hw Hh Hy))).
Defined.

Lemma corrPoints_nth (m i : N) (j : nat) :
  (0 < m)%N -> (0 < i)%N -> (j < 10)%nat ->
  nth_error (corrPoints m i) j = Some (corrPoint m i 10 (S j)).
Proof.
  intros Hm Hi Hlt. rewrite (corrPoints_map m i Hm Hi).
  rewrite nth_error_map, nth_error_seq.
  destruct (Nat.ltb_spec j 10) as [_ | Hge]; [ reflexivity | lia ].
Qed.

Lemma corrPoint_x (m i : N) (k : nat) :
  x (corrPoint m i 10 k) = N2R i * (INR k / 10).
Proof.
  unfold corrPoint, x. replace (INR 10) with 10 by (simpl; lra). reflexivity.
Qed.

Lemma corrPoints_x_range (m i : N) (b : R) :
  (0 < m)%N -> (0 < i)%N -> In b (map x (corrPoints m i)) ->
  N2R i * (1 / 10) <= b <= N2R i.
Proof.
  intros Hm Hi Hb. apply in_map_iff in Hb. destruct Hb as (p & <- & Hp).
  destruct (corrPoints_in m i Hm Hi p Hp) as (k & [Hk1 Hk10] & ->).
  rewrite corrPoint_x. pose proof (N2R_pos i Hi) as Hip.
  assert (H1 : 1 <= INR k) by (change 1 with (INR 1); now apply le_INR).
  assert (H10 : INR k <= 10).
  { replace 10 with (INR 10) by (simpl; lra). now apply le_INR. }
  split; nra.
Qed.

(** The chart of the correlation curve over the reals, for any plot size
    that leaves room for the padding. *)
Lemma vertices_of_corrPoints (m i : N) (width height : R) :
  2 * LineChart.pad <= width -> 2 * LineChart.pad <= height ->
  ((m = 0 \/ i = 0)%N ->
   LineChart.vertices width height (corrPoints m i) = None) /\
  ((0 < m)%N -> (0 < i)%N ->
   exists vs,
     LineChart.vertices width height (corrPoints m i) = Some vs /\
     length vs = 10%nat /\
     (forall X Y, In (X, Y) vs ->
        LineChart.pad <= X <= width - LineChart.pad /\
        LineChart.pad <= Y <= height - LineChart.pad) /\
     (exists Y, nth_error vs 0 = Some (LineChart.pad, Y)) /\
     (exists Y, nth_error vs 9 = Some (width - LineChart.pad, Y))).
Proof.
  intros Hw Hh. split.
  - intros Hz. now rewrite (corrPoints_zero m i Hz).
  - intros Hm Hi. pose proof (N2R_pos i Hi) as Hip.
    set (pts := corrPoints m i).
    set (F := fun p : Point =>
                (LineChart.sx width pts (x p), LineChart.sy height pts (y p))).
    assert (Hlen : length pts = 10%nat).
    { unfold pts. rewrite (corrPoints_map m i Hm Hi).
      rewrite length_map. apply length_seq. }
    assert (Hvs : LineChart.vertices width height pts = Some (map F pts)).
    { unfold LineChart.vertices, F.
      destruct pts as [| p0 l]; [ discriminate Hlen | reflexivity ]. }
    assert (Hy : forall p, In p pts -> 0 <= y p).
    { intros p Hp.
      destruct (corrPoints_in m i Hm Hi p Hp) as (k & _ & ->).
      rewrite corrPoint_y_of_x. apply Rmax_l. }
    assert (Hmin : LineChart.minOf (map x pts) = N2R i * (1 / 10)).
    { apply minOf_unique.
      - apply in_map_iff. exists (corrPoint m i 10 1). split.
        + rewrite corrPoint_x. simpl. reflexivity.
        + apply nth_error_In with 0%nat.
          apply (corrPoints_nth m i 0 Hm Hi). lia.
      - intros b Hb. now apply (corrPoints_x_range m i b Hm Hi). }
    assert (Hmax : LineChart.maxOf (map x pts) = N2R i).
    { apply maxOf_unique.
      - apply in_map_iff. exists (corrPoint m i 10 10). split.
        + rewrite corrPoint_x. replace (INR 10) with 10 by (simpl; lra).
          field.
        + apply nth_error_In with 9%nat.
          apply (corrPoints_nth m i 9 Hm Hi). lia.
      - intros b Hb. now apply (corrPoints_x_range m i b Hm Hi). }
    exists (map F pts).
    split; [ exact Hvs | ].
    split; [ now rewrite length_map | ].
    split.
    { intros X Y Hin.
      apply in_map_iff in Hin. destruct Hin as (p & Hp & Hin).
      injection Hp as <- <-.
      split; [ now apply sx_in_box | apply sy_in_box; auto ]. }
    split.
    + exists (LineChart.sy height pts (y (corrPoint m i 10 1))).
      rewrite nth_error_map.
      unfold pts at 1. rewrite (corrPoints_nth m i 0 Hm Hi) by lia.
      simpl option_map. unfold F. f_equal. f_equal.
      unfold LineChart.sx. cbv zeta. rewrite Hmin, corrPoint_x.
      simpl INR. unfold Rdiv. ring.
    + exists (LineChart.sy height pts (y (corrPoint m i 10 10))).
      rewrite nth_error_map.
      unfold pts at 1. rewrite (corrPoints_nth m i 9 Hm Hi) by lia.
      simpl option_map. unfold F. f_equal. f_equal.
      unfold LineChart.sx. cbv zeta. rewrite Hmin, Hmax, corrPoint_x.
      replace (INR 10) with 10 by (simpl; lra).
      unfold LineChart.orOne.
      destruct (Req_dec_T (N2R i - N2R i * (1 / 10)) 0) as [E | N];
        [ lra | ].
      field. lra.
Qed.

(** X15. The chart of the correlation curve as the result page draws it
    (560 by 180, padding 24), for a principal and an investor count in the
    safe integer range: with a zero principal or investor count it is the
    placeholder; otherwise it has ten vertices, all inside the plot area,
    the first on the left edge and the last on the right edge of that
    area. *)
Theorem chart_of_corrPoints (m i : N) :
  (m <= Js.MAX_SAFE_INTEGER)%N -> (i <= Js.MAX_SAFE_INTEGER)%N ->
  ((m = 0 \/ i = 0)%N ->
   LineChart.vertices 560 180 (corrPoints m i) = None) /\
  ((0 < m)%N -> (0 < i)%N ->
   exists vs,
     LineChart.vertices 560 180 (corrPoints m i) = Some vs /\
     length vs = 10%nat /\
     (forall X Y, In (X, Y) vs ->
        LineChart.pad <= X <= 560 - LineChart.pad /\
        LineChart.pad <= Y <= 180 - LineChart.pad) /\
     (exists Y, nth_error vs 0 = Some (LineChart.pad, Y)) /\
     (exists Y, nth_error vs 9 = Some (560 - LineChart.pad, Y))).
Proof.
  intros _ _.
  apply vertices_of_corrPoints; unfold LineChart.pad; lra.
Qed.

Lemma chart_of_corrPoints_witness :
  (1000000 <= Js.MAX_SAFE_INTEGER)%N /\
  (18000000 <= Js.MAX_SAFE_INTEGER)%N /\
  LineChart.vertices 560 180 (corrPoints 0 18000000) = None /\
  exists vs,
    LineChart.vertices 560 180 (corrPoints 1000000 18000000) = Some vs /\
    length vs = 10%nat /\
    (exists Y, nth_error vs 0 = Some (LineChart.pad, Y)) /\
    (exists Y, nth_error vs 9 = Some (560 - LineChart.pad, Y)).
Proof.
  assert (H0 : (0 <= Js.MAX_SAFE_INTEGER)%N)
    by (vm_compute; intros C; discriminate C).
  assert (H1 : (1000000 <= Js.MAX_SAFE_INTEGER)%N)
    by (vm_compute; intros C; discriminate C).
  assert (H2 : (18000000 <= Js.MAX_SAFE_INTEGER)%N)
    by (vm_compute; intros C; discriminate C).
  split; [ exact H1 | ].
  split; [ exact H2 | ].
  split.
  - apply (proj1 (chart_of_corrPoints 0 18000000 H0 H2)). now left.
  - destruct (proj2 (chart_of_corrPoints 1000000 18000000 H1 H2))
      as (vs & Hvs & Hlen & _ & Hfirst & Hlast); try reflexivity.
    exists vs.
    split; [ exact Hvs | ].
    split; [ exact Hlen | ].
    split; [ exact Hfirst | exact Hlast ].
Defined.

(** ** The wizard *)

Lemma calcAll_inputs (st : State) :
  investment (calcAll st) = investment st /\
  modalStr (calcAll st) = modalStr st /\
  monthsStr (calcAll st) = monthsStr st /\
  investorsStr (calcAll st) = investorsStr st /\
  adj (calcAll st) = adj st /\
  pdb (calcAll st) = pdb st /\
  porsiProduktif (calcAll st) = porsiProduktif st.
Proof.
  unfold calcAll.
  destruct (adjustedRatesFor (adj st) (investment st)); [ | tauto ].
  destruct (Js.falsy (modal st) || Js.falsy (months st))%bool;
    simpl; tauto.
Qed.

Lemma calcAll_current (st : State) :
  In (investment st) instruments -> (0 < modal st)%N -> (1 <= months st)%N ->
  resultsCurrent (calcAll st) /\
  exists r, adjustedRatesFor (adj st) (investment st) = Some r /\
            result (calcAll st)
              = Some (scenarioResult r (modal st) (months st)) /\
            impact (calcAll st)
              = Some (nationalImpact (modal st) (investors st)).
Proof.
  intros Hin Hm Hd.
  destruct (get_base_known _ Hin) as [b Hb].
  assert (Hr : exists r, adjustedRatesFor (adj st) (investment st) = Some r).
  { unfold adjustedRatesFor. rewrite Hb. eexists. reflexivity. }
  destruct Hr as [r Hr].
  pose proof (calcAll_runs st r Hr Hm Hd) as E.
  split.
  - exists (adj st), r. rewrite E. simpl. repeat split. exact Hr.
  - exists r. rewrite E. simpl. repeat split. exact Hr.
Qed.

Lemma resultsCurrent_shown (st : State) :
  resultsCurrent st ->
  isSome (result st) = true /\ isSome (impact st) = true.
Proof. intros (a & r & _ & -> & ->). split; reflexivity. Qed.

Lemma truthyStr_instrument (s : string) :
  s = ""%string \/ In s instruments -> Js.truthyStr s = true ->
  In s instruments.
Proof. intros [-> | H] Ht; [ discriminate Ht | exact H ]. Qed.

Lemma months_click (v : string) (st : State) :
  In v ["6"; "12"; "36"]%string -> (months (setMonthsStr v st) <= 600)%N.
Proof.
  intros [<- | [<- | [<- | []]]]; intro C; discriminate C.
Qed.

Lemma onClickLihatHasil_inv (w : App) :
  wizardInv w -> step w = 4%Z ->
  Js.falsy (modal (engine w)) = false ->
  Js.falsy (months (engine w)) = false ->
  wizardInv (onClickLihatHasil w).
Proof.
  intros (Hs & Hmo & Hopt & Hins & H5) E4 Hm Hd.
  unfold onClickLihatHasil.
  destruct (isSome (err_modal (validate w)) || isSome (err_months (validate w))
            || isSome (err_investors (validate w)))%bool.
  - repeat split; assumption || lia.
  - unfold Js.falsy in Hm, Hd.
    apply N.eqb_neq in Hm. apply N.eqb_neq in Hd.
    assert (Hin : In (investment (engine w)) instruments) by (apply Hins; lia).
    destruct (calcAll_inputs (engine w)) as (Ei & Em & Ed & Ev & _).
    destruct (calcAll_current (engine w) Hin) as (Hcur & _); try lia.
    unfold wizardInv, setStep, onEngine; simpl.
    unfold months, modal in *. rewrite Ei, Em, Ed.
    repeat split; try assumption; try lia.
    + intros _. exact Hin.
Qed.

Lemma resultPageShown_step (w : App) :
  resultPageShown w = true -> step w = 5%Z.
Proof.
  unfold resultPageShown. intros H.
  apply andb_prop in H. destruct H as (H & _).
  apply andb_prop in H. destruct H as (H & _).
  now apply Z.eqb_eq.
Qed.

Ltac step_cases :=
  repeat match goal with
         | |- context [(step ?w =? ?n)%Z] =>
             destruct (Z.eqb_spec (step w) n)
         end.

(** A handler of step 4 that rewrites one numeric field. *)
Ltac inv_field_at_4 :=
  unfold wizardInv; simpl;
  repeat split; try assumption; try lia.

Lemma handle_inv (w : App) (ev : Event) :
  wizardInv w -> eventOk w ev -> wizardInv (handle ev w).
Proof.
  intros Hinv Hok. pose proof Hinv as (Hs & Hmo & Hopt & Hins & H5).
  destruct ev; unfold handle; cbv zeta.
  - (* ClickNext *)
    step_cases; try exact Hinv.
    + unfold next. rewrite e. simpl.
      unfold wizardInv; simpl. repeat split; try assumption; lia.
    + destruct (isSome (err_nama (validate w)) || isSome (err_usia (validate w))
                || match nama w with [] => true | _ :: _ => false end)%bool;
        [ exact Hinv | ].
      unfold next.
      destruct (Z.eqb_spec (step w) 1); [ lia | ].
      destruct (Z.eqb_spec (step w) 2); [ | lia ].
      destruct (isSome (err_nama (validate w))
                || isSome (err_usia (validate w)))%bool; [ exact Hinv | ].
      unfold wizardInv; simpl. repeat split; try assumption; lia.
    + destruct (Js.truthyStr (investment (engine w))) eqn:Ht;
        [ | exact Hinv ].
      simpl negb. cbv iota. unfold next.
      destruct (Z.eqb_spec (step w) 1); [ lia | ].
      destruct (Z.eqb_spec (step w) 2); [ lia | ].
      destruct (Z.eqb_spec (step w) 3); [ | lia ].
      destruct (isSome (err_investment (validate w))); [ exact Hinv | ].
      unfold wizardInv; simpl. repeat split; try assumption; try lia.
      intros _. now apply truthyStr_instrument.
  - (* ClickBack *)
    destruct ((2 <=? step w)%Z && (step w <=? 4)%Z)%bool eqn:Hb;
      [ | exact Hinv ].
    apply andb_prop in Hb. destruct Hb as (Hb1 & Hb2).
    apply Z.leb_le in Hb1. apply Z.leb_le in Hb2.
    unfold back, wizardInv; simpl.
    repeat split; try assumption; try lia.
  - step_cases; exact Hinv.
  - step_cases; exact Hinv.
  - step_cases; exact Hinv.
  - (* SelectInvestment *)
    step_cases; [ | exact Hinv ].
    simpl in Hok. unfold wizardInv; simpl.
    repeat split; try assumption; try lia.
  - step_cases; [ inv_field_at_4 | exact Hinv ].
  - step_cases; [ inv_field_at_4 | exact Hinv ].
  - step_cases; [ inv_field_at_4 | exact Hinv ].
  - step_cases; [ inv_field_at_4 | exact Hinv ].
  - (* TypeMonths *)
    step_cases; [ | exact Hinv ].
    unfold wizardInv; simpl. repeat split; try assumption; try lia.
    unfold months, onChangeMonths, setMonthsStr; simpl.
    rewrite !toString_digits, Number_toString, clamp_0_600. lia.
  - (* ClickMonths *)
    step_cases; [ | exact Hinv ].
    simpl in Hok. unfold wizardInv; simpl.
    repeat split; try assumption; try lia.
    now apply months_click.
  - step_cases; [ inv_field_at_4 | exact Hinv ].
  - (* ClickLihatHasil *)
    step_cases; [ | exact Hinv ].
    destruct (Js.falsy (modal (engine w))) eqn:Hm; [ exact Hinv | ].
    destruct (Js.falsy (months (engine w))) eqn:Hd; [ exact Hinv | ].
    now apply onClickLihatHasil_inv.
  - destruct (resultPageShown w); exact Hinv.
  - destruct (resultPageShown w); exact Hinv.
  - (* ClickTerapkan *)
    destruct (resultPageShown w) eqn:Hp; [ | exact Hinv ].
    pose proof (resultPageShown_step w Hp) as E5.
    destruct (H5 E5) as (Hm & Hd & _).
    assert (Hin : In (investment (engine w)) instruments)
      by (apply Hins; lia).
    destruct (calcAll_inputs (engine w)) as (Ei & Em & Ed & Ev & _).
    destruct (calcAll_current (engine w) Hin Hm Hd) as (Hcur & _).
    unfold wizardInv, onEngine; simpl.
    unfold months, modal in *. rewrite Ei, Em, Ed.
    repeat split; try assumption; try lia.
  - destruct (resultPageShown w); exact Hinv.
  - destruct (resultPageShown w); exact Hinv.
  - (* ClickInfo *)
    destruct (resultPageShown w); exact Hinv.
  - (* ClickUbahAngka *)
    destruct (resultPageShown w) eqn:Hp; [ | exact Hinv ].
    pose proof (resultPageShown_step w Hp) as E5.
    unfold wizardInv; simpl. repeat split; try assumption; try lia.
    intros _. apply Hins. lia.
  - (* ClickMulaiLagi *)
    destruct (resultPageShown w) eqn:Hp; [ | exact Hinv ].
    unfold wizardInv, resetAll; simpl.
    repeat split; try lia.
    + intro C; discriminate C.
    + now left.
Qed.

Lemma appInit_inv : wizardInv appInit.
Proof.
  unfold wizardInv, appInit; simpl.
  repeat split; try lia.
  - intro C; discriminate C.
  - now left.
Qed.

Lemma reachable_inv (w : App) : reachable w -> wizardInv w.
Proof.
  induction 1 as [| w ev _ IH Hok]; [ exact appInit_inv | ].
  now apply handle_inv.
Qed.

Lemma wDemo_reachable : reachable wDemo.
Proof.
  unfold wDemo, run, demoEvents. cbv [fold_left].
  repeat (apply reach_step;
          [ | cbv [eventOk instruments In]; auto ]).
  apply reach_init.
Qed.

Lemma wDemo_step : step wDemo = 5%Z.
Proof. reflexivity. Qed.

(** X16. In every state the user can reach the step is between 1 and 5,
    so the progress bar is between 20 % and 100 %. *)
Theorem wizard_step_range (w : App) :
  reachable w ->
  (1 <= step w <= 5)%Z /\ 20 <= progress w <= 100.
Proof.
  intros Hr. destruct (reachable_inv w Hr) as ((H1 & H5) & _).
  split; [ lia | ].
  unfold progress. apply IZR_le in H1. apply IZR_le in H5. lra.
Qed.

Lemma wizard_step_range_witness :
  reachable wDemo /\ (1 <= step wDemo <= 5)%Z /\ progress wDemo = 100.
Proof.
  split; [ exact wDemo_reachable | ].
  split; [ exact (proj1 (wizard_step_range wDemo wDemo_reachable)) | ].
  unfold progress. rewrite wDemo_step. lra.
Defined.

(** X17. Whenever the user is on step 5 the result page is rendered (a
    result and an impact are stored), the principal is positive, the
    duration is between 1 and 600 months, the instrument is one of the
    five, and the stored figures are those of the current principal,
    duration and investor count under some toggle setting. *)
Theorem wizard_result_page (w : App) :
  reachable w -> step w = 5%Z ->
  resultPageShown w = true /\
  (0 < modal (engine w))%N /\
  (1 <= months (engine w) <= 600)%N /\
  In (investment (engine w)) instruments /\
  exists (a : Adj) (r : Rates),
    adjustedRatesFor a (investment (engine w)) = Some r /\
    result (engine w)
      = Some (scenarioResult r (modal (engine w)) (months (engine w))) /\
    impact (engine w)
      = Some (nationalImpact (modal (engine w)) (investors (engine w))).
Proof.
  intros Hr E5.
  destruct (reachable_inv w Hr) as (_ & Hmo & _ & Hins & H5).
  destruct (H5 E5) as (Hm & Hd & Hcur).
  destruct (resultsCurrent_shown _ Hcur) as (Hres & Himp).
  split.
  - unfold resultPageShown. rewrite E5, Hres, Himp. reflexivity.
  - split; [ exact Hm | ].
    split; [ lia | ].
    split; [ apply Hins; lia | exact Hcur ].
Qed.

Lemma wizard_result_page_witness :
  reachable wDemo /\ step wDemo = 5%Z /\
  resultPageShown wDemo = true /\
  (1 <= months (engine wDemo) <= 600)%N.
Proof.
  destruct (wizard_result_page wDemo wDemo_reachable wDemo_step)
    as (Hp & _ & Hd & _).
  split; [ exact wDemo_reachable | ].
  split; [ exact wDemo_step | ].
  split; [ exact Hp | exact Hd ].
Defined.

(** X18. In every reachable state the duration is at most 600 months and
    the instrument is the empty choice or one of the five; from step 4 on
    it is one of the five. *)
Theorem wizard_inputs_bounded (w : App) :
  reachable w ->
  (months (engine w) <= 600)%N /\
  (investment (engine w) = ""%string \/
   In (investment (engine w)) instruments) /\
  ((4 <= step w)%Z -> In (investment (engine w)) instruments).
Proof.
  intros Hr. destruct (reachable_inv w Hr) as (_ & Hmo & Hopt & Hins & _).
  split; [ exact Hmo | ]. split; [ exact Hopt | exact Hins ].
Qed.

Lemma wizard_inputs_bounded_witness :
  reachable wDemo /\ (months (engine wDemo) <= 600)%N /\
  In (investment (engine wDemo)) instruments.
Proof.
  destruct (wizard_inputs_bounded wDemo wDemo_reachable) as (Hmo & _ & Hins).
  split; [ exact wDemo_reachable | ].
  split; [ exact Hmo | ].
  apply Hins. rewrite wDemo_step. intro C; discriminate C.
Defined.

Lemma truthyStr_false (s : string) : Js.truthyStr s = false <-> s = ""%string.
Proof. destruct s; simpl; split; intros H; congruence. Qed.

Ltac bools_to_props :=
  unfold Js.falsy in *;
  repeat match goal with
         | H : (_ =? _)%N = true |- _ => apply N.eqb_eq in H
         | H : (_ =? _)%N = false |- _ => apply N.eqb_neq in H
         | H : (_ <? _)%N = true |- _ => apply N.ltb_lt in H
         | H : (_ <? _)%N = false |- _ => apply N.ltb_ge in H
         | H : Js.truthyStr _ = false |- _ => apply truthyStr_false in H
         end.

(** On step 4 the three numeric checks pass exactly when the principal is
    positive, the duration is within 1..600 and the investor field is empty
    or holds a positive number. *)
Lemma numbers_validation (w : App) :
  step w = 4%Z ->
  (isSome (err_modal (validate w)) || isSome (err_months (validate w))
   || isSome (err_investors (validate w)))%bool = false <->
  (0 < modal (engine w))%N /\ (1 <= months (engine w) <= 600)%N /\
  (investorsStr (engine w) = ""%string \/ (0 < investors (engine w))%N).
Proof.
  intros E. unfold validate. cbv zeta.
  cbn [err_modal err_months err_investors]. rewrite E.
  change (4 <=? 4)%Z with true. cbn [andb].
  destruct (Js.falsy (modal (engine w))) eqn:Hm;
  destruct (Js.falsy (months (engine w))) eqn:Hd;
  destruct (months (engine w) <? 1)%N eqn:Hd1;
  destruct (600 <? months (engine w))%N eqn:Hd6;
  destruct (Js.truthyStr (investorsStr (engine w))) eqn:Hs;
  destruct (Js.falsy (investors (engine w))) eqn:Hi;
  cbn; bools_to_props;
  (split; [ intros C; try discriminate C; repeat split; try lia;
            try (now left); try (right; lia)
          | intros (P1 & (P2 & P3) & P4); try reflexivity; try lia;
            destruct P4 as [P4 | P4];
            try lia; try (rewrite P4 in Hs; discriminate Hs) ]).
Qed.

(** X19. "Lihat Hasil" on step 4 with a chosen instrument: if the
    principal is positive, the duration is within 1..600 and the investor
    field is empty or positive, the page moves to step 5 and stores the
    projection and impact of the current inputs and toggles; otherwise
    nothing changes.  [next] does the same on step 4. *)
Theorem onClickLihatHasil_gate (w : App) :
  step w = 4%Z -> In (investment (engine w)) instruments ->
  ((0 < modal (engine w))%N /\ (1 <= months (engine w) <= 600)%N /\
   (investorsStr (engine w) = ""%string \/ (0 < investors (engine w))%N) ->
   step (onClickLihatHasil w) = 5%Z /\
   exists r,
     adjustedRatesFor (adj (engine w)) (investment (engine w)) = Some r /\
     result (engine (onClickLihatHasil w))
       = Some (scenarioResult r (modal (engine w)) (months (engine w))) /\
     impact (engine (onClickLihatHasil w))
       = Some (nationalImpact (modal (engine w)) (investors (engine w)))) /\
  (~ ((0 < modal (engine w))%N /\ (1 <= months (engine w) <= 600)%N /\
      (investorsStr (engine w) = ""%string \/
       (0 < investors (engine w))%N)) ->
   onClickLihatHasil w = w) /\
  next w = onClickLihatHasil w.
Proof.
  intros E Hin. pose proof (numbers_validation w E) as Hv.
  split; [ | split ].
  - intros Hpass. unfold onClickLihatHasil.
    rewrite (proj2 Hv Hpass). destruct Hpass as (Hm & (Hd & _) & _).
    split; [ reflexivity | ].
    destruct (calcAll_current (engine w) Hin Hm Hd) as (_ & r & Hr & H1 & H2).
    exists r. simpl. repeat split; assumption.
  - intros Hfail. unfold onClickLihatHasil.
    destruct (isSome (err_modal (validate w))
              || isSome (err_months (validate w))
              || isSome (err_investors (validate w)))%bool eqn:Hb;
      [ reflexivity | ].
    elim Hfail. now apply Hv.
  - unfold next, onClickLihatHasil. rewrite E. reflexivity.
Qed.

Lemma onClickLihatHasil_gate_witness :
  step wNoInvestors = 4%Z /\
  In (investment (engine wNoInvestors)) instruments /\
  step (onClickLihatHasil wNoInvestors) = 5%Z /\
  onClickLihatHasil (onEngine (setModalStr "") wNoInvestors)
    = onEngine (setModalStr "") wNoInvestors.
Proof.
  assert (E : step wNoInvestors = 4%Z) by reflexivity.
  assert (Hin : In (investment (engine wNoInvestors)) instruments)
    by (simpl; tauto).
  split; [ exact E | ].
  split; [ exact Hin | ].
  split.
  - apply (proj1 (onClickLihatHasil_gate wNoInvestors E Hin)).
    split; [ reflexivity | ].
    split; [ split; intro C; discriminate C | now left ].
  - apply (proj1 (proj2 (onClickLihatHasil_gate
                           (onEngine (setModalStr "") wNoInvestors) E Hin))).
    intros (C & _). discriminate C.
Defined.

(** X20. An emptied investor field passes the check that rejects "0": for
    a principal in the safe integer range the calculation then stores a
    pooled amount and an impact of zero, and the correlation curve has no
    point. *)
Theorem empty_investors_zero_impact (w : App) :
  step w = 4%Z -> In (investment (engine w)) instruments ->
  (0 < modal (engine w))%N ->
  (modal (engine w) <= Js.MAX_SAFE_INTEGER)%N ->
  (1 <= months (engine w) <= 600)%N ->
  investorsStr (engine w) = ""%string ->
  step (onClickLihatHasil w) = 5%Z /\
  (exists imp,
     impact (engine (onClickLihatHasil w)) = Some imp /\
     totalDana imp = 0 /\ impactPct imp = 0) /\
  corrPoints (modal (engine (onClickLihatHasil w)))
             (investors (engine (onClickLihatHasil w))) = [] /\
  (forall w' : App,
     step w' = 4%Z -> investorsStr (engine w') = "0"%string ->
     err_investors (validate w') <> None).
Proof.
  intros E Hin Hm _ Hd Hs.
  assert (Hi : investors (engine w) = 0%N)
    by (unfold investors; rewrite Hs; reflexivity).
  assert (Hpass : (isSome (err_modal (validate w))
                   || isSome (err_months (validate w))
                   || isSome (err_investors (validate w)))%bool = false).
  { apply (numbers_validation w E). repeat split; try lia. now left. }
  destruct (calcAll_current (engine w) Hin Hm (proj1 Hd))
    as (_ & r & Hr & H1 & H2).
  destruct (calcAll_inputs (engine w)) as (_ & Em & _ & Ev & _).
  unfold onClickLihatHasil. rewrite Hpass. simpl.
  split; [ reflexivity | ].
  split; [ | split ].
  - exists (nationalImpact (modal (engine w)) (investors (engine w))).
    split; [ exact H2 | ].
    rewrite Hi. unfold nationalImpact, N2R; simpl.
    unfold Rdiv. split; ring.
  - unfold investors. rewrite Ev. fold (investors (engine w)). rewrite Hi.
    apply corrPoints_zero. now right.
  - intros w' E' Hst. unfold validate. rewrite E'. simpl.
    unfold investors. rewrite Hst. simpl. discriminate.
Qed.

Lemma empty_investors_zero_impact_witness :
  step wNoInvestors = 4%Z /\
  In (investment (engine wNoInvestors)) instruments /\
  (0 < modal (engine wNoInvestors))%N /\
  (modal (engine wNoInvestors) <= Js.MAX_SAFE_INTEGER)%N /\
  (1 <= months (engine wNoInvestors) <= 600)%N /\
  investorsStr (engine wNoInvestors) = ""%string /\
  step (onClickLihatHasil wNoInvestors) = 5%Z /\
  exists imp,
    impact (engine (onClickLihatHasil wNoInvestors)) = Some imp /\
    totalDana imp = 0 /\ impactPct imp = 0.
Proof.
  assert (E : step wNoInvestors = 4%Z) by reflexivity.
  assert (Hin : In (investment (engine wNoInvestors)) instruments)
    by (simpl; tauto).
  assert (Hm : (0 < modal (engine wNoInvestors))%N) by reflexivity.
  assert (Hd : (1 <= months (engine wNoInvestors) <= 600)%N)
    by (split; intro C; discriminate C).
  assert (Hs : investorsStr (engine wNoInvestors) = ""%string)
    by reflexivity.
  assert (Hb : (modal (engine wNoInvestors) <= Js.MAX_SAFE_INTEGER)%N)
    by (vm_compute; intros C; discriminate C).
  split; [ exact E | ].
  split; [ exact Hin | ].
  split; [ exact Hm | ].
  split; [ exact Hb | ].
  split; [ exact Hd | ].
  split; [ exact Hs | ].
  destruct (empty_investors_zero_impact wNoInvestors E Hin Hm Hb Hd Hs)
    as (H5 & Himp & _).
  split; [ exact H5 | exact Himp ].
Defined.

(** X22. [back] never leaves the first page, and on steps 1 to 3 it undoes
    a [next] that advanced: the state is the one before. *)
Theorem next_back_roundtrip (w : App) :
  (1 <= step (back w))%Z /\
  (step w = 1%Z -> back w = w) /\
  ((1 <= step w <= 3)%Z -> step (next w) = (step w + 1)%Z ->
   back (next w) = w).
Proof.
  destruct w as [s n u p e].
  split; [ unfold back; simpl; lia | ].
  split.
  - simpl. intros ->. reflexivity.
  - cbn [step]. intros Hs. unfold next. cbv zeta. cbn [step].
    set (errs := validate _).
    destruct (Z.eqb_spec s 1) as [-> | N1]; [ reflexivity | ].
    destruct (Z.eqb_spec s 2) as [-> | N2].
    { destruct (isSome (err_nama errs) || isSome (err_usia errs))%bool;
        cbn [step setStep]; intros H; [ lia | reflexivity ]. }
    destruct (Z.eqb_spec s 3) as [-> | N3]; [ | lia ].
    destruct (isSome (err_investment errs));
      cbn [step setStep]; intros H; [ lia | reflexivity ].
Qed.

Lemma next_back_roundtrip_witness :
  (1 <= step appInit <= 3)%Z /\ step (next appInit) = (step appInit + 1)%Z /\
  back (next appInit) = appInit.
Proof.
  assert (H : (1 <= step appInit <= 3)%Z) by (simpl; lia).
  assert (H' : step (next appInit) = (step appInit + 1)%Z) by reflexivity.
  split; [ exact H | ].
  split; [ exact H' | ].
  exact (proj2 (proj2 (next_back_roundtrip appInit)) H H').
Defined.

(** X23. The button of step 2 advances to step 3 exactly when the trimmed
    name has 2 to 30 code units and the age is empty or within 10..100;
    otherwise the click changes nothing. *)
Theorem step2_gate (w : App) :
  step w = 2%Z ->
  (step (handle ClickNext w) = 3%Z <->
   (2 <= length (Js.trim (nama w)) <= 30)%nat /\
   (usia w = ""%string \/ (10 <= Js.NumberFrom 0 (usia w) <= 100)%N)) /\
  (step (handle ClickNext w) <> 3%Z -> handle ClickNext w = w).
Proof.
  intros E.
  assert (Hnil : nama w = [] -> length (Js.trim (nama w)) = 0%nat)
    by (intros ->; reflexivity).
  unfold handle, next. cbv zeta. rewrite E.
  change (2 =? 1)%Z with false. change (2 =? 2)%Z with true. cbv iota.
  unfold validate. cbv zeta. cbn [err_nama err_usia]. rewrite E.
  change (2 <=? 2)%Z with true. cbn [andb].
  set (L := length (Js.trim (nama w))) in *. clearbody L.
  destruct (N.of_nat L <? 2)%N eqn:H2; destruct (30 <? N.of_nat L)%N eqn:H30;
  destruct (Js.truthyStr (usia w)) eqn:Hu;
  destruct (Js.NumberFrom 0 (usia w) <? 10)%N eqn:H10;
  destruct (100 <? Js.NumberFrom 0 (usia w))%N eqn:H100;
  destruct (nama w) as [| c l] eqn:Hn;
  cbn; rewrite ?E; bools_to_props;
  try (specialize (Hnil eq_refl));
  (split;
   [ split;
     [ intros C; first
         [ discriminate C
         | lia
         | split; [ lia | first [ now left | right; lia ] ] ]
     | intros ((P1 & P2) & P3); first
         [ reflexivity
         | lia
         | destruct P3 as [P3 | P3];
           first [ lia | rewrite P3 in Hu; discriminate Hu ] ] ]
   | intros C; try reflexivity; try (elim C; reflexivity) ]).
Qed.

Lemma step2_gate_witness :
  step (setNama [65; 114; 102; 97]%N (setStep 2 appInit)) = 2%Z /\
  step (handle ClickNext (setNama [65; 114; 102; 97]%N (setStep 2 appInit)))
    = 3%Z /\
  handle ClickNext (setNama [32; 65; 32]%N (setStep 2 appInit))
    = setNama [32; 65; 32]%N (setStep 2 appInit).
Proof.
  assert (E : step (setNama [65; 114; 102; 97]%N (setStep 2 appInit)) = 2%Z)
    by reflexivity.
  assert (E' : step (setNama [32; 65; 32]%N (setStep 2 appInit)) = 2%Z)
    by reflexivity.
  split; [ exact E | ].
  split.
  - apply (proj1 (step2_gate _ E)). split.
    + simpl. lia.
    + now left.
  - apply (proj2 (step2_gate _ E')).
    intros C. apply (proj1 (step2_gate _ E')) in C.
    destruct C as ((C & _) & _). simpl in C. lia.
Defined.

(** X24. The what-if pills: pressing one twice restores the setting, the
    order of two presses does not matter and a press changes only its own
    flag.  On doubles, switching a pill on moves the three rates of a known
    instrument in the direction of that pill's table delta, whatever the
    other pills show: up for a positive delta, down for a negative one, not
    at all for an instrument the pill does not list; the optimistic and the
    moderate rate move by the delta and the pessimistic rate by half of it,
    up to a rounding error of at most 2^-58. *)
Theorem toggle_effect (a : Adj) (t t' : Toggle) (type : string) :
  toggle t (toggle t a) = a /\
  toggle t (toggle t' a) = toggle t' (toggle t a) /\
  active (toggle t a) t = negb (active a t) /\
  (t <> t' -> active (toggle t a) t' = active a t') /\
  (In type instruments -> active a t = false ->
   exists r r',
     B64.adjustedRatesFor a type = Some r /\
     B64.adjustedRatesFor (toggle t a) type = Some r' /\
     (PrimFloat.abs (B64.opt r' - (B64.opt r + B64.delta t type))
        <=? 0x1p-58)%float = true /\
     (PrimFloat.abs (B64.mod_ r' - (B64.mod_ r + B64.delta t type))
        <=? 0x1p-58)%float = true /\
     (PrimFloat.abs (B64.pes r' - (B64.pes r + B64.delta t type * 0.5))
        <=? 0x1p-58)%float = true /\
     ((0 <? B64.delta t type)%float = true ->
      (B64.opt r <? B64.opt r')%float = true /\
      (B64.mod_ r <? B64.mod_ r')%float = true /\
      (B64.pes r <? B64.pes r')%float = true) /\
     ((B64.delta t type <? 0)%float = true ->
      (B64.opt r' <? B64.opt r)%float = true /\
      (B64.mod_ r' <? B64.mod_ r)%float = true /\
      (B64.pes r' <? B64.pes r)%float = true) /\
     ((B64.delta t type =? 0)%float = true -> r' = r)).
Proof.
  split; [ destruct a as [[] [] []], t; reflexivity | ].
  split; [ destruct a as [[] [] []], t, t'; reflexivity | ].
  split; [ destruct a as [[] [] []], t; reflexivity | ].
  split; [ destruct a as [[] [] []], t, t'; intros H;
           try reflexivity; elim H; reflexivity | ].
  intros Hin Hoff.
  instrument_cases Hin; toggle_cases a; destruct t;
    try discriminate Hoff;
    (do 2 eexists;
     split; [ reflexivity | ];
     split; [ reflexivity | ];
     split; [ vm_compute; reflexivity | ];
     split; [ vm_compute; reflexivity | ];
     split; [ vm_compute; reflexivity | ];
     split; [ vm_compute; intros H;
              first [ discriminate H | repeat split ] | ];
     split; [ vm_compute; intros H;
              first [ discriminate H | repeat split ] | ];
     vm_compute; intros H; first [ discriminate H | reflexivity ]).
Qed.

Lemma toggle_effect_witness :
  In "saham"%string instruments /\ active adjOff InflasiUp = false /\
  exists r r',
    B64.adjustedRatesFor adjOff "saham" = Some r /\
    B64.adjustedRatesFor (toggle InflasiUp adjOff) "saham" = Some r' /\
    (B64.opt r' <? B64.opt r)%float = true /\
    (B64.mod_ r' <? B64.mod_ r)%float = true /\
    (B64.pes r' <? B64.pes r)%float = true.
Proof.
  assert (H : In "saham"%string instruments) by (simpl; tauto).
  assert (H' : active adjOff InflasiUp = false) by reflexivity.
  split; [ exact H | ].
  split; [ exact H' | ].
  destruct (proj2 (proj2 (proj2 (proj2
             (toggle_effect adjOff InflasiUp BiDown "saham")))) H H')
    as (r & r' & Hr & Hr' & _ & _ & _ & _ & Hdown & _).
  exists r, r'.
  split; [ exact Hr | ].
  split; [ exact Hr' | ].
  apply Hdown.
  vm_compute. reflexivity.
Defined.

(** X25. Recalculating is idempotent: "Terapkan ke hasil" pressed twice
    leaves the same state as pressed once. *)
Theorem calcAll_idempotent (st : State) : calcAll (calcAll st) = calcAll st.
Proof.
  destruct (adjustedRatesFor (adj st) (investment st)) as [r |] eqn:Hr.
  - destruct (Js.falsy (modal st) || Js.falsy (months st))%bool eqn:Hg.
    + assert (E : calcAll st = st)
        by (unfold calcAll; rewrite Hr, Hg; reflexivity).
      now rewrite !E.
    + assert (E : calcAll st
                  = setImpact (nationalImpact (modal st) (investors st))
                      (setResult (scenarioResult r (modal st) (months st))
                         st))
        by (unfold calcAll; rewrite Hr, Hg; reflexivity).
      rewrite E. unfold calcAll. cbn [adj investment setImpact setResult].
      rewrite Hr.
      change (modal (setImpact _ (setResult _ st))) with (modal st).
      change (months (setImpact _ (setResult _ st))) with (months st).
      rewrite Hg. reflexivity.
  - assert (E : calcAll st = st) by (unfold calcAll; rewrite Hr; reflexivity).
    now rewrite !E.
Qed.

(** X26. On the result page a what-if pill only flips its flag: the stored
    result and impact stay as they were until "Terapkan ke hasil" is
    pressed, which stores the projection under the new toggle setting for
    the unchanged principal and duration. *)
Theorem toggle_then_terapkan (w : App) (t : Toggle) :
  reachable w -> step w = 5%Z ->
  result (engine (handle (ClickToggle t) w)) = result (engine w) /\
  impact (engine (handle (ClickToggle t) w)) = impact (engine w) /\
  adj (engine (handle (ClickToggle t) w)) = toggle t (adj (engine w)) /\
  exists r,
    adjustedRatesFor (toggle t (adj (engine w))) (investment (engine w))
      = Some r /\
    result (engine (handle ClickTerapkan (handle (ClickToggle t) w)))
      = Some (scenarioResult r (modal (engine w)) (months (engine w))).
Proof.
  intros Hr E5.
  destruct (reachable_inv w Hr) as (_ & _ & _ & Hins & H5).
  destruct (H5 E5) as (Hm & Hd & Hcur).
  destruct (resultsCurrent_shown _ Hcur) as (Hres & Himp).
  assert (Hin : In (investment (engine w)) instruments) by (apply Hins; lia).
  assert (Hshown : resultPageShown w = true)
    by (unfold resultPageShown; rewrite E5, Hres, Himp; reflexivity).
  set (st1 := setAdj (toggle t (adj (engine w))) (engine w)).
  assert (E1 : handle (ClickToggle t) w = onEngine (fun _ => st1) w).
  { unfold handle. cbv zeta. rewrite Hshown. reflexivity. }
  rewrite E1.
  assert (Hshown1 : resultPageShown (onEngine (fun _ => st1) w) = true)
    by exact Hshown.
  split; [ reflexivity | ].
  split; [ reflexivity | ].
  split; [ reflexivity | ].
  destruct (calcAll_current st1 Hin Hm Hd) as (_ & r & Hr1 & Hres1 & _).
  exists r. split; [ exact Hr1 | ].
  unfold handle. cbv zeta. rewrite Hshown1. exact Hres1.
Qed.

Lemma toggle_then_terapkan_witness :
  reachable wDemo /\ step wDemo = 5%Z /\
  result (engine (handle (ClickToggle BiDown) wDemo)) = result (engine wDemo) /\
  adj (engine (handle (ClickToggle BiDown) wDemo))
    = toggle BiDown (adj (engine wDemo)).
Proof.
  destruct (toggle_then_terapkan wDemo BiDown wDemo_reachable wDemo_step)
    as (H1 & _ & H3 & _).
  split; [ exact wDemo_reachable | ].
  split; [ exact wDemo_step | ].
  split; [ exact H1 | exact H3 ].
Defined.

(** ** Early return of [calcAll] on doubles *)

Lemma get_base64_instruments (type : string) :
  get B64.base type = None <-> ~ In type instruments.
Proof.
  unfold B64.base, instruments; simpl.
  repeat match goal with
         | |- context [String.eqb type ?k] =>
             destruct (String.eqb_spec type k) as [-> | ?];
             [ split; [ intros H; discriminate H | intros H; elim H; tauto ] | ]
         end.
  split; [ | reflexivity ].
  intros _ H.
  repeat (destruct H as [H | H]; [ symmetry in H; contradiction | ]).
  exact H.
Qed.

Lemma member_absent (type : string) :
  B64.member type = B64.Absent <->
  ~ In type instruments /\ ~ In type B64.objectPrototype.
Proof.
  unfold B64.member.
  destruct (get B64.base type) as [b |] eqn:E.
  - split; [ intros H; discriminate H | ].
    intros (H & _). apply get_base64_instruments in H.
    rewrite H in E. discriminate E.
  - pose proof (proj1 (get_base64_instruments type) E) as Hn.
    destruct (existsb (String.eqb type) B64.objectPrototype) eqn:Ex.
    + split; [ intros H; discriminate H | ].
      intros (_ & H). elim H.
      apply existsb_exists in Ex. destruct Ex as (k & Hk & Ek).
      apply String.eqb_eq in Ek. now subst k.
    + split; [ | reflexivity ].
      intros _. split; [ exact Hn | ].
      intros H.
      assert (C : existsb (String.eqb type) B64.objectPrototype = true).
      { apply existsb_exists. exists type.
        split; [ exact H | apply String.eqb_refl ]. }
      rewrite C in Ex. discriminate Ex.
Qed.

(** X27. [calcAll] on doubles returns early, leaving every cell and so the
    stored result and impact as they were, when the instrument names no
    member of the rate table, own or inherited (the placeholder option of
    the select and any other unlisted name), when the principal field
    holds no digit or only zeros, and when the duration field does. *)
Theorem calcAll_early_return
    (approx : float -> float -> float) (st : B64.State) :
  (B64.member (B64.investment st) = B64.Absent <->
   ~ In (B64.investment st) instruments /\
   ~ In (B64.investment st) B64.objectPrototype) /\
  (B64.member (B64.investment st) = B64.Absent ->
   B64.adjustedRatesFor (B64.adj st) (B64.investment st) = None /\
   B64.calcAll approx st = st) /\
  (Js.NumberOr0 (onlyDigits (B64.modalStr st)) = 0%N ->
   B64.calcAll approx st = st) /\
  (Js.NumberOr0 (onlyDigits (B64.monthsStr st)) = 0%N ->
   B64.calcAll approx st = st).
Proof.
  assert (Z0 : B64.falsy (B64.roundN 0) = true) by (vm_compute; reflexivity).
  split; [ apply member_absent | ].
  split.
  - intros H.
    assert (E : B64.adjustedRatesFor (B64.adj st) (B64.investment st) = None)
      by (unfold B64.adjustedRatesFor; rewrite H; reflexivity).
    split; [ exact E | ].
    unfold B64.calcAll. now rewrite E.
  - split; intros H; unfold B64.calcAll;
      destruct (B64.adjustedRatesFor (B64.adj st) (B64.investment st));
      try reflexivity.
    + unfold B64.modal, B64.Number. rewrite H, Z0. reflexivity.
    + unfold B64.months, B64.Number. rewrite H, Z0.
      rewrite orb_true_r. reflexivity.
Qed.

Lemma calcAll_early_return_witness :
  B64.member (B64.investment B64.stPlaceholder) = B64.Absent /\
  forall approx : float -> float -> float,
    B64.calcAll approx B64.stPlaceholder = B64.stPlaceholder.
Proof.
  assert (H : B64.member (B64.investment B64.stPlaceholder) = B64.Absent)
    by reflexivity.
  split; [ exact H | ].
  intros approx.
  exact (proj2 (proj1 (proj2 (calcAll_early_return approx B64.stPlaceholder))
                  H)).
Defined.

(** ** Starting over *)

Ltac project_cells :=
  cbn [step nama usia pekerjaan engine showInfo investment modalStr
       monthsStr investorsStr adj result impact pdb porsiProduktif].

Lemma calcAll_forgetSt (st : State) :
  forgetSt (calcAll st) = forgetSt (calcAll (forgetSt st)).
Proof.
  destruct st as [i m mo inv a r im pd po].
  unfold calcAll, forgetSt, setPorsiProduktif, setPdb, setResult, setImpact,
    modal, months, investors.
  project_cells.
  destruct (adjustedRatesFor a i); [ | reflexivity ].
  destruct (Js.falsy (Js.NumberOr0 (onlyDigits m))
            || Js.falsy (Js.NumberOr0 (onlyDigits mo)))%bool; reflexivity.
Qed.

Lemma onEngine_forgetKept (f : State -> State) (w : App) :
  (forall st, forgetSt (f st) = forgetSt (f (forgetSt st))) ->
  forgetKept (onEngine f w) = forgetKept (onEngine f (forgetKept w)).
Proof.
  intros H. unfold forgetKept, onEngine, setShowInfo. project_cells.
  now rewrite (H (engine w)).
Qed.

Lemma setStep_forgetKept (n : Z) (w : App) :
  forgetKept (setStep n w) = setStep n (forgetKept w).
Proof. reflexivity. Qed.

Lemma calcAll_step_forgetKept (n : Z) (w : App) :
  forgetKept (setStep n (onEngine calcAll w))
  = forgetKept (setStep n (onEngine calcAll (forgetKept w))).
Proof.
  rewrite !setStep_forgetKept. f_equal.
  apply onEngine_forgetKept, calcAll_forgetSt.
Qed.

Ltac split_ifs :=
  repeat match goal with
         | |- context [if ?c then _ else _] => destruct c
         end.

Lemma next_forgetKept (w : App) :
  forgetKept (next w) = forgetKept (next (forgetKept w)).
Proof.
  unfold next. cbv zeta.
  change (validate (forgetKept w)) with (validate w).
  change (step (forgetKept w)) with (step w).
  split_ifs; try reflexivity.
  apply calcAll_step_forgetKept.
Qed.

Lemma onClickLihatHasil_forgetKept (w : App) :
  forgetKept (onClickLihatHasil w)
  = forgetKept (onClickLihatHasil (forgetKept w)).
Proof.
  unfold onClickLihatHasil. cbv zeta.
  change (validate (forgetKept w)) with (validate w).
  split_ifs; try reflexivity.
  apply calcAll_step_forgetKept.
Qed.

(** No control of the page reads the three kept cells to decide what to do
    with the others. *)
Lemma handle_forgetKept (ev : Event) (w : App) :
  forgetKept (handle ev w) = forgetKept (handle ev (forgetKept w)).
Proof.
  destruct ev; unfold handle; cbv zeta;
    change (validate (forgetKept w)) with (validate w);
    change (step (forgetKept w)) with (step w);
    change (nama (forgetKept w)) with (nama w);
    change (resultPageShown (forgetKept w)) with (resultPageShown w);
    change (engine (forgetKept w)) with (forgetSt (engine w));
    change (investment (forgetSt (engine w))) with (investment (engine w));
    change (modal (forgetSt (engine w))) with (modal (engine w));
    change (months (forgetSt (engine w))) with (months (engine w));
    change (adj (forgetSt (engine w))) with (adj (engine w));
    split_ifs; try reflexivity;
    first [ apply next_forgetKept
          | apply onClickLihatHasil_forgetKept
          | apply onEngine_forgetKept;
            first [ apply calcAll_forgetSt | reflexivity ]
          | idtac ].
Qed.

Lemma run_forgetKept (evs : list Event) (w1 w2 : App) :
  forgetKept w1 = forgetKept w2 ->
  forgetKept (run evs w1) = forgetKept (run evs w2).
Proof.
  revert w1 w2. induction evs as [| ev evs IH]; intros w1 w2 H.
  - exact H.
  - change (run (ev :: evs) w1) with (run evs (handle ev w1)).
    change (run (ev :: evs) w2) with (run evs (handle ev w2)).
    apply IH.
    rewrite (handle_forgetKept ev w1), (handle_forgetKept ev w2).
    now rewrite H.
Qed.

(** X21. "Mulai Lagi" starts the page over: [resetAll] leaves the GDP, the
    productive share and the flag of the explanation box as they are and
    puts every other cell back to its first-render value, and from then on
    the page answers every sequence of user actions as a freshly loaded
    page does, up to those three cells. *)
Theorem resetAll_fresh_page (w : App) (evs : list Event) :
  pdb (engine (resetAll w)) = pdb (engine w) /\
  porsiProduktif (engine (resetAll w)) = porsiProduktif (engine w) /\
  showInfo (resetAll w) = showInfo w /\
  forgetKept (resetAll w) = forgetKept appInit /\
  forgetKept (run evs (resetAll w)) = forgetKept (run evs appInit).
Proof.
  split; [ reflexivity | ].
  split; [ reflexivity | ].
  split; [ reflexivity | ].
  assert (H : forgetKept (resetAll w) = forgetKept appInit) by reflexivity.
  split; [ exact H | ].
  now apply run_forgetKept.
Qed.

Lemma resetAll_fresh_page_witness :
  forgetKept (run demoEvents (resetAll wDemo)) = forgetKept wDemo.
Proof.
  exact (proj2 (proj2 (proj2 (proj2
           (resetAll_fresh_page wDemo demoEvents))))).
Defined.

(** ** Reading a field on doubles *)

(** Above 2^53 the number read back is the nearest double, not the number
    typed. *)
Example number_rounds :
  B64.Number "9007199254740993" = 9007199254740992%float.
Proof. vm_compute. reflexivity. Qed.

(** A field of 309 nines reads as [Infinity], which passes the guards of
    [calcAll]; with an emptied investor field the pooled amount is then
    [0 * Infinity], that is [NaN]. *)
Example number_overflows :
  B64.Number (String.concat "" (repeat "9"%string 309)) = infinity /\
  B64.falsy infinity = false /\
  (B64.Number "" * infinity = nan)%float.
Proof. repeat split; vm_compute; reflexivity. Qed.
